(** * Version resolution and the v1.80 installer of gardener-installation

    A shallow embedding of
      - [src/ts/versions/installations.ts]  (the version registry,
        [getInstallation], [convertStateValues]),
      - the v1.80 [Installation.install] shim, and
      - the [Gardener] control-plane deployment task ([do],
        [getKubeConfigForServiceAccount]),
    together with a model of the part of the npm [semver] package these files
    call ([satisfies], [new SemVer], [compareMain], [raw]).

    Strings are sequences of ASCII characters; JavaScript numbers that hold
    version components are natural numbers, with the rounding to a double
    written out where the library converts an arbitrarily long digit string. *)

From Stdlib Require Import String Ascii List Bool NArith ZArith Lia.
From Stdlib Require Import DecimalString.
Import ListNotations.

Open Scope string_scope.
Open Scope list_scope.

(* ================================================================== *)
(** * Part I. The [semver] package, as far as the repository uses it   *)
(* ================================================================== *)

Module Semver.

(** ** Character classes of the regular expressions *)

Definition isDigit (c : ascii) : bool :=
  let n := N_of_ascii c in ((48 <=? n) && (n <=? 57))%N.

Definition isLetter (c : ascii) : bool :=
  let n := N_of_ascii c in
  (((65 <=? n) && (n <=? 90)) || ((97 <=? n) && (n <=? 122)))%N.

(** [[a-zA-Z0-9-]] *)
Definition isLetterDashNumber (c : ascii) : bool :=
  isDigit c || isLetter c || (c =? "-")%char.

(** White space removed by [String.prototype.trim] (ASCII part). *)
Definition isSpace (c : ascii) : bool :=
  let n := N_of_ascii c in (((9 <=? n) && (n <=? 13)) || (n =? 32))%N.

Definition notSpace (c : ascii) : bool := negb (isSpace c).

Fixpoint trimStart (s : string) : string :=
  match s with
  | String c r => if isSpace c then trimStart r else s
  | EmptyString => EmptyString
  end.

Fixpoint trimEnd (s : string) : string :=
  match s with
  | EmptyString => EmptyString
  | String c r =>
      match trimEnd r with
      | EmptyString => if isSpace c then EmptyString else String c EmptyString
      | t => String c t
      end
  end.

Definition trim (s : string) : string := trimEnd (trimStart s).

Fixpoint allChars (p : ascii -> bool) (s : string) : bool :=
  match s with
  | EmptyString => true
  | String c r => p c && allChars p r
  end.

(** [s.split(sep)] for a one-character separator. *)
Fixpoint split (sep : ascii) (s : string) : list string :=
  match s with
  | EmptyString => [EmptyString]
  | String c r =>
      if (c =? sep)%char then EmptyString :: split sep r
      else match split sep r with
           | h :: t => String c h :: t
           | [] => [String c EmptyString]
           end
  end.

(** The longest prefix of characters satisfying [p], and what follows it. *)
Fixpoint span (p : ascii -> bool) (s : string) : string * string :=
  match s with
  | EmptyString => (EmptyString, EmptyString)
  | String c r =>
      if p c then let '(a, b) := span p r in (String c a, b)
      else (EmptyString, s)
  end.

(** ** Numbers *)

Definition MAX_LENGTH : nat := 256.
Definition MAX_SAFE_INTEGER : N := 9007199254740991.

Definition digitValue (c : ascii) : N := N_of_ascii c - 48.

(** The integer a string of decimal digits denotes. *)
Fixpoint digitsValue (acc : N) (s : string) : N :=
  match s with
  | EmptyString => acc
  | String c r => digitsValue (10 * acc + digitValue c) r
  end.

(** The double nearest to the integer [n] (ties to even): what unary [+]
    yields on a digit string denoting [n].  Below 2^53 nothing is lost. *)
Definition toDouble (n : N) : N :=
  if (n <? 2 ^ 53)%N then n
  else
    let e := (N.log2 n - 52)%N in
    let q := N.shiftr n e in
    let r := (n mod 2 ^ e)%N in
    let half := (2 ^ (e - 1))%N in
    let q' := if ((half <? r) || ((r =? half) && N.odd q))%N then (q + 1)%N else q in
    (q' * 2 ^ e)%N.

(** Unary plus on a digit string. *)
Definition toNumber (s : string) : N := toDouble (digitsValue 0 s).

(** [NUMERICIDENTIFIER]: the digit 0, or digits that start with none. *)
Definition isNumericIdentifier (s : string) : bool :=
  match s with
  | EmptyString => false
  | String c r => allChars isDigit s && (negb (c =? "0")%char || (r =? "")%string)
  end.

(** [/^[0-9]+$/] *)
Definition numeric_test (s : string) : bool :=
  negb (s =? "")%string && allChars isDigit s.

(** [PRERELEASEIDENTIFIER]: a numeric identifier, or any non-empty word over
    [[a-zA-Z0-9-]] with at least one non-digit. *)
Definition isPrereleaseIdentifier (s : string) : bool :=
  negb (s =? "")%string && allChars isLetterDashNumber s &&
  (negb (allChars isDigit s) || isNumericIdentifier s).

(** [BUILDIDENTIFIER]: [[a-zA-Z0-9-]+]. *)
Definition isBuildIdentifier (s : string) : bool :=
  negb (s =? "")%string && allChars isLetterDashNumber s.

(** ** Parsed versions *)

(** A prerelease identifier is kept as a number when it is made of digits
    and safe, and as a string otherwise. *)
Inductive Identifier : Type :=
| IdNumber (n : N)
| IdString (s : string).

Record SemVer : Type := mkSemVer {
  raw : string;
  major : N;
  minor : N;
  patch : N;
  prerelease : list Identifier;
  build : list string
}.

(** The capture groups of the regular expression [FULL]: an optional [v],
    three numeric identifiers separated by dots, then optionally [-] and
    dot-separated prerelease identifiers, then optionally [+] and
    dot-separated build identifiers, up to the end of the input. *)
Record FullMatch : Type := mkFullMatch {
  m1 : string; m2 : string; m3 : string;
  m4 : option string; m5 : option string
}.

Definition notPlus (c : ascii) : bool := negb (c =? "+")%char.

(** The optional build part and the end of the input. *)
Definition matchBuild (s : string) : option (option string) :=
  match s with
  | EmptyString => Some None
  | String "+" b =>
      if forallb isBuildIdentifier (split "." b) then Some (Some b) else None
  | _ => None
  end.

(** The optional prerelease part, the optional build part and the end of
    the input.  A prerelease identifier holds no [+], so the prerelease part
    runs up to the first [+]. *)
Definition matchTail (s : string) : option (option string * option string) :=
  match s with
  | String "-" r =>
      let '(p, rest) := span notPlus r in
      if forallb isPrereleaseIdentifier (split "." p) then
        match matchBuild rest with
        | Some b => Some (Some p, b)
        | None => None
        end
      else None
  | _ =>
      match matchBuild s with
      | Some b => Some (None, b)
      | None => None
      end
  end.

Definition matchFull (s : string) : option FullMatch :=
  let s := match s with String "v" r => r | _ => s end in
  let '(a, s) := span isDigit s in
  match s with
  | String "." s =>
      let '(b, s) := span isDigit s in
      match s with
      | String "." s =>
          let '(c, s) := span isDigit s in
          if isNumericIdentifier a && isNumericIdentifier b && isNumericIdentifier c
          then match matchTail s with
               | Some (p, bd) => Some (mkFullMatch a b c p bd)
               | None => None
               end
          else None
      | _ => None
      end
  | _ => None
  end.

Definition parsePrereleaseIdentifier (id : string) : Identifier :=
  if numeric_test id then
    let num := toNumber id in
    if (num <? MAX_SAFE_INTEGER)%N then IdNumber num else IdString id
  else IdString id.

(** [new SemVer(version)] in strict mode; [None] stands for the [TypeError]
    the constructor throws on a string that is no version. *)
Definition new_SemVer (version : string) : option SemVer :=
  if (MAX_LENGTH <? String.length version)%nat then None
  else
    match matchFull (trim version) with
    | None => None
    | Some m =>
        let mj := toNumber (m1 m) in
        let mn := toNumber (m2 m) in
        let pt := toNumber (m3 m) in
        if ((MAX_SAFE_INTEGER <? mj) || (MAX_SAFE_INTEGER <? mn) ||
            (MAX_SAFE_INTEGER <? pt))%N
        then None
        else
          Some {| raw := version;
                  major := mj; minor := mn; patch := pt;
                  prerelease :=
                    match m4 m with
                    | Some p => map parsePrereleaseIdentifier (split "." p)
                    | None => []
                    end;
                  build :=
                    match m5 m with
                    | Some b => split "." b
                    | None => []
                    end |}
    end.

(** ** Comparison

    Comparison functions return -1, 0 or 1, as in the package. *)

Open Scope Z_scope.

(** [a || b] on numbers. *)
Definition orElse (a b : Z) : Z := if a =? 0 then b else a.

Definition compareNumbers (a b : N) : Z :=
  if (a =? b)%N then 0 else if (a <? b)%N then -1 else 1.

(** [a === b] on identifiers. *)
Definition Identifier_eqb (a b : Identifier) : bool :=
  match a, b with
  | IdNumber x, IdNumber y => (x =? y)%N
  | IdString x, IdString y => (x =? y)%string
  | _, _ => false
  end.

Definition identifierIsNumeric (a : Identifier) : bool :=
  match a with
  | IdNumber _ => true
  | IdString s => numeric_test s
  end.

Definition identifierNumber (a : Identifier) : N :=
  match a with
  | IdNumber n => n
  | IdString s => toNumber s
  end.

Definition compareIdentifiers (a b : Identifier) : Z :=
  let anum := identifierIsNumeric a in
  let bnum := identifierIsNumeric b in
  if anum && bnum then compareNumbers (identifierNumber a) (identifierNumber b)
  else if Identifier_eqb a b then 0
  else if anum && negb bnum then -1
  else if bnum && negb anum then 1
  else match a, b with
       | IdString x, IdString y => if String.ltb x y then -1 else 1
       | _, _ => 1
       end.

Definition compareMain (a b : SemVer) : Z :=
  orElse (compareNumbers (major a) (major b))
    (orElse (compareNumbers (minor a) (minor b))
       (compareNumbers (patch a) (patch b))).

Fixpoint comparePreLoop (a b : list Identifier) : Z :=
  match a, b with
  | [], [] => 0
  | _ :: _, [] => 1
  | [], _ :: _ => -1
  | x :: a', y :: b' =>
      if Identifier_eqb x y then comparePreLoop a' b' else compareIdentifiers x y
  end.

Definition comparePre (a b : SemVer) : Z :=
  match prerelease a, prerelease b with
  | _ :: _, [] => -1
  | [], _ :: _ => 1
  | [], [] => 0
  | pa, pb => comparePreLoop pa pb
  end.

(** [a.compare(b)]; the package first returns 0 when the two formatted
    versions are the same string, which [compareMain] and [comparePre] give
    as well. *)
Definition compare (a b : SemVer) : Z :=
  orElse (compareMain a b) (comparePre a b).

(** ** Comparators and ranges *)

Inductive Operator : Type := OpEq | OpLt | OpLte | OpGt | OpGte.

Inductive Comparator : Type :=
| ANY
| Cmp (operator : Operator) (semver : SemVer).

Definition cmp (a : SemVer) (op : Operator) (b : SemVer) : bool :=
  match op with
  | OpEq => compare a b =? 0
  | OpLt => compare a b <? 0
  | OpLte => compare a b <=? 0
  | OpGt => compare a b >? 0
  | OpGte => compare a b >=? 0
  end.

Definition Comparator_test (c : Comparator) (version : SemVer) : bool :=
  match c with
  | ANY => true
  | Cmp op sv => cmp version op sv
  end.

Definition hasPrerelease (v : SemVer) : bool :=
  match prerelease v with [] => false | _ :: _ => true end.

(** A version with a prerelease tag passes only when some comparator of
    the set names a prerelease of the same [major.minor.patch]. *)
Definition allowsPrerelease (version : SemVer) (c : Comparator) : bool :=
  match c with
  | ANY => false
  | Cmp _ allowed =>
      hasPrerelease allowed &&
      (major allowed =? major version)%N &&
      (minor allowed =? minor version)%N &&
      (patch allowed =? patch version)%N
  end.

Definition testSet (set : list Comparator) (version : SemVer) : bool :=
  if forallb (fun c => Comparator_test c version) set then
    if hasPrerelease version then existsb (allowsPrerelease version) set
    else true
  else false.

Close Scope Z_scope.

(** The operator a comparator string starts with, and the rest. *)
Definition splitOperator (s : string) : Operator * string :=
  match s with
  | String ">" (String "=" r) => (OpGte, r)
  | String "<" (String "=" r) => (OpLte, r)
  | String ">" r => (OpGt, r)
  | String "<" r => (OpLt, r)
  | String "=" r => (OpEq, r)
  | _ => (OpEq, s)
  end.

(** [new Comparator(comp)]: the empty string is [ANY]; otherwise an
    operator, optional white space and a full version.  [None] stands for
    the [TypeError] of an invalid comparator. *)
Definition new_Comparator (comp : string) : option Comparator :=
  match comp with
  | EmptyString => Some ANY
  | _ =>
      let '(op, r) := splitOperator comp in
      let v := trimStart r in
      match matchFull v with
      | None => None
      | Some _ => option_map (Cmp op) (new_SemVer v)
      end
  end.

Definition string_of_N (n : N) : string :=
  NilEmpty.string_of_uint (N.to_uint n).

(** [isX]: a missing component, [x], [X] or the star. *)
Definition isX (id : option string) : bool :=
  match id with
  | None => true
  | Some s => (s =? "x") || (s =? "X") || (s =? "*")
  end.

(** [XRANGEIDENTIFIER] *)
Definition isXRangeIdentifier (s : string) : bool :=
  isNumericIdentifier s || isX (Some s).

Definition orEmpty (o : option string) : string :=
  match o with Some s => s | None => "" end.

(** [replaceXRange] and [replaceStars] on a comparator written without an
    operator, with the components [M], [m], [p] the regular expression
    [XRANGE] captured: the desugared comparator string.  A numeric component
    that is incremented must be a safe integer, so that the sum is exact. *)
Definition replaceXRange (comp : string) (M m p : option string) : option string :=
  let xM := isX M in
  let xm := xM || isX m in
  let xp := xm || isX p in
  if xM then Some ""
  else if xm then
    if (toNumber (orEmpty M) <? MAX_SAFE_INTEGER)%N then
      Some (">=" ++ orEmpty M ++ ".0.0 <" ++
            string_of_N (toNumber (orEmpty M) + 1) ++ ".0.0-0")%string
    else None
  else if xp then
    if (toNumber (orEmpty m) <? MAX_SAFE_INTEGER)%N then
      Some (">=" ++ orEmpty M ++ "." ++ orEmpty m ++ ".0 <" ++
            orEmpty M ++ "." ++ string_of_N (toNumber (orEmpty m) + 1) ++ ".0-0")%string
    else None
  else Some comp.

Fixpoint mapM {A B : Type} (f : A -> option B) (l : list A) : option (list B) :=
  match l with
  | [] => Some []
  | x :: r =>
      match f x, mapM f r with
      | Some y, Some ys => Some (y :: ys)
      | _, _ => None
      end
  end.

Definition isV (c : ascii) : bool := (c =? "v")%char.

(** A range is a disjunction of comparator sets. *)
Record Range : Type := mkRange { set : list (list Comparator) }.

(** [new Range(range)] on the x-range fragment of the range grammar: one
    partial version [M], [M.m] or [M.m.p], optionally prefixed with [v],
    each component a number, [x], [X] or the star, and no operator, caret,
    tilde, hyphen, disjunction, prerelease or build part.  [None] is
    returned outside this fragment; every pattern of the registry lies
    inside it (lemma [versions_ranges] below). *)
Definition new_Range (range : string) : option Range :=
  let '(_, partial) := span isV (trim range) in
  let parts := split "." partial in
  if forallb isXRangeIdentifier parts && (List.length parts <=? 3)%nat then
    match replaceXRange (trim range) (nth_error parts 0) (nth_error parts 1)
            (nth_error parts 2) with
    | None => None
    | Some desugared =>
        match mapM new_Comparator (split " " desugared) with
        | Some comparators => Some (mkRange [comparators])
        | None => None
        end
    end
  else None.

Definition Range_test (r : Range) (version : string) : bool :=
  match version with
  | EmptyString => false
  | _ =>
      match new_SemVer version with
      | None => false
      | Some v => existsb (fun s => testSet s v) (set r)
      end
  end.

(** [satisfies(version, range)]: [false] when the range does not parse or
    the version is no version. *)
Definition satisfies (version range : string) : bool :=
  match new_Range range with
  | None => false
  | Some r => Range_test r version
  end.

End Semver.

(* ================================================================== *)
(** * Part II. JavaScript values, exceptions and the version registry  *)
(* ================================================================== *)

(** ** Values and objects *)

#[warnings="-register-all"]
Inductive value : Type :=
| Undefined
| Null
| Bool (b : bool)
| Number (z : Z)
| Str (s : string)
| Object (props : list (string * value))
| Array (items : list value).

(** [o[k]] on an object kept as its list of properties, in insertion
    order; [None] is [undefined]. *)
Fixpoint property {A : Type} (o : list (string * A)) (k : string) : option A :=
  match o with
  | [] => None
  | (k', v) :: r => if (k' =? k)%string then Some v else property r k
  end.

(** [o[k] = v]: an existing property keeps its place, a new one comes last. *)
Fixpoint setProperty {A : Type} (o : list (string * A)) (k : string) (v : A)
  : list (string * A) :=
  match o with
  | [] => [(k, v)]
  | (k', v') :: r =>
      if (k' =? k)%string then (k', v) :: r else (k', v') :: setProperty r k v
  end.

Definition Object_keys {A : Type} (o : list (string * A)) : list string :=
  map fst o.

(** ** Exceptions and completions *)

Record Exception : Type := mkException {
  exn_name : string;
  exn_message : string
}.

Inductive completion (A : Type) : Type :=
| Return (a : A)
| Throw (e : Exception).

Arguments Return {A} a.
Arguments Throw {A} e.

Definition TypeError (message : string) : Exception :=
  mkException "TypeError" message.

(** [class VersionNotFound extends Exception] *)
Definition VersionNotFound (version : string) : Exception :=
  mkException "VersionNotFound" ("Version " ++ version ++ " not found").

(** ** Versioned objects

    [VersionedState] and [VersionedValues] are objects with a [version]
    string and further properties. *)

Record Versioned : Type := mkVersioned {
  version : string;
  properties : list (string * value)
}.

Definition VersionedState : Type := Versioned.
Definition VersionedValues : Type := Versioned.

(** ** The registry *)

Inductive InstallationConstructor : Type :=
| Installation_1_46
| Installation_1_47
| Installation_1_50
| Installation_1_51
| Installation_1_62
| Installation_1_74
| Installation_1_80
| Installation_1_81
| Installation_1_90.

Definition versions : list (string * InstallationConstructor) :=
  [ ("v1.46.x", Installation_1_46);
    ("v1.47.x", Installation_1_47);
    ("v1.48.x", Installation_1_47);
    ("v1.49.x", Installation_1_47);
    ("v1.50.x", Installation_1_50);
    ("v1.51.x", Installation_1_51);
    ("v1.52.x", Installation_1_51);
    ("v1.53.x", Installation_1_51);
    ("v1.54.x", Installation_1_51);
    ("v1.55.x", Installation_1_51);
    ("v1.56.x", Installation_1_51);
    ("v1.57.x", Installation_1_51);
    ("v1.58.x", Installation_1_51);
    ("v1.59.x", Installation_1_51);
    ("v1.60.x", Installation_1_51);
    ("v1.61.x", Installation_1_51);
    ("v1.62.x", Installation_1_62);
    ("v1.63.x", Installation_1_62);
    ("v1.64.x", Installation_1_62);
    ("v1.65.x", Installation_1_62);
    ("v1.66.x", Installation_1_62);
    ("v1.67.x", Installation_1_62);
    ("v1.68.x", Installation_1_62);
    ("v1.69.x", Installation_1_62);
    ("v1.70.x", Installation_1_62);
    ("v1.71.x", Installation_1_62);
    ("v1.72.x", Installation_1_62);
    ("v1.73.x", Installation_1_62);
    ("v1.74.x", Installation_1_74);
    ("v1.75.x", Installation_1_74);
    ("v1.76.x", Installation_1_74);
    ("v1.77.x", Installation_1_74);
    ("v1.78.x", Installation_1_74);
    ("v1.79.x", Installation_1_74);
    ("v1.80.x", Installation_1_80);
    ("v1.81.x", Installation_1_81);
    ("v1.82.x", Installation_1_81);
    ("v1.83.x", Installation_1_81);
    ("v1.84.x", Installation_1_81);
    ("v1.85.x", Installation_1_81);
    ("v1.86.x", Installation_1_81);
    ("v1.87.x", Installation_1_81);
    ("v1.88.x", Installation_1_81);
    ("v1.89.x", Installation_1_81);
    ("v1.90.x", Installation_1_90);
    ("v1.91.x", Installation_1_90);
    ("v1.92.x", Installation_1_90);
    ("v1.93.x", Installation_1_90);
    ("v1.94.x", Installation_1_90);
    ("v1.95.x", Installation_1_90) ].

(** [getInstallation]; the returned option is [versions[matchingVersion]],
    [None] being [undefined]. *)
Definition getInstallation (version : string)
  : completion (option InstallationConstructor) :=
  match find (fun v => Semver.satisfies version v) (Object_keys versions) with
  | None => Throw (VersionNotFound version)
  | Some matchingVersion => Return (property versions matchingVersion)
  end.

Definition convertStateValues (state : VersionedState) (targetVersion : string)
  : completion VersionedState :=
  match find (fun v => Semver.satisfies (version state) v) (Object_keys versions) with
  | None => Throw (VersionNotFound (version state))
  | Some _ => Return state
  end.

(* ================================================================== *)
(** * Part III. Asynchronous code: a log of events and a completion    *)
(* ================================================================== *)

(** An [async] method is a function from the events logged so far to the
    events logged when it settles and its completion; [await] is [bind],
    which stops at the first rejection. *)

Definition M (E A : Type) : Type := list E -> list E * completion A.

Definition ret {E A : Type} (a : A) : M E A := fun log => (log, Return a).

Definition throw {E A : Type} (e : Exception) : M E A := fun log => (log, Throw e).

Definition bind {E A B : Type} (m : M E A) (k : A -> M E B) : M E B :=
  fun log =>
    match m log with
    | (log', Return a) => k a log'
    | (log', Throw e) => (log', Throw e)
    end.

Definition tell {E : Type} (e : E) : M E unit := fun log => (log ++ [e], Return tt).

(** A synchronous computation inside an [async] method. *)
Definition lift {E A : Type} (c : completion A) : M E A := fun log => (log, c).

Declare Scope async_scope.
Delimit Scope async_scope with async.
Notation "x <- m ;; k" := (bind m (fun x => k))
  (at level 61, m at next level, right associativity) : async_scope.
Notation "m ;; k" := (bind m (fun _ => k))
  (at level 61, right associativity) : async_scope.

(* ================================================================== *)
(** * Part IV. The v1.80 installer                                     *)
(* ================================================================== *)

Module V1_80.

Definition VERSION : string := "1.80".

(** [new SemVer('v1.23.16')] *)
Definition targetVirtualClusterVersion : Semver.SemVer :=
  {| Semver.raw := "v1.23.16";
     Semver.major := 1; Semver.minor := 23; Semver.patch := 16;
     Semver.prerelease := []; Semver.build := [] |}.

(** What the log of an installation records: the [install] method of an
    installer class has been entered. *)
Inductive event : Type :=
| Invoke (installer : InstallationConstructor).

(** [stateValues.apiserver.version]: reading a property of [undefined] or
    [null] throws; any other value without the property gives [undefined]. *)
Definition apiserver_version (stateValues : VersionedState) : completion value :=
  match property (properties stateValues) "apiserver" with
  | None | Some Undefined | Some Null =>
      Throw (TypeError "Cannot read properties of undefined (reading 'version')")
  | Some (Object apiserver) =>
      Return (match property apiserver "version" with
              | Some v => v
              | None => Undefined
              end)
  | Some _ => Return Undefined
  end.

(** [new SemVer(v)] on a value: only a string that is a version passes. *)
Definition new_SemVer (v : value) : completion Semver.SemVer :=
  match v with
  | Str s =>
      match Semver.new_SemVer s with
      | Some sv => Return sv
      | None => Throw (TypeError ("Invalid Version: " ++ s))
      end
  | _ => Throw (TypeError "Invalid version. Must be a string.")
  end.

(** [stateValues.apiserver.version = v] *)
Definition set_apiserver_version (stateValues : VersionedState) (v : string)
  : completion VersionedState :=
  match property (properties stateValues) "apiserver" with
  | Some (Object apiserver) =>
      Return (mkVersioned (version stateValues)
                (setProperty (properties stateValues) "apiserver"
                   (Object (setProperty apiserver "version" (Str v)))))
  | _ => Throw (TypeError "Cannot set properties (setting 'version')")
  end.

(** The floor of the band: a virtual cluster older than the target on
    [major.minor.patch] is raised to the target. *)
Definition raiseFloor (stateValues : VersionedState) : completion VersionedState :=
  match apiserver_version stateValues with
  | Throw e => Throw e
  | Return v =>
      match new_SemVer v with
      | Throw e => Throw e
      | Return sv =>
          if (Semver.compareMain sv targetVirtualClusterVersion =? -1)%Z
          then set_apiserver_version stateValues
                 (Semver.raw targetVirtualClusterVersion)
          else Return stateValues
      end
  end.

Section Installation.

(** The helpers of [../v1.46/Values] and the parent class are not part
    of the sources at hand and are kept as parameters. *)
Variable Flow : Type.
Variable emptyState : string -> VersionedState.
Variable isStateValues : VersionedState -> bool.
Variable validateState : VersionedState -> Exception.
(** [Installation_1_74.prototype.install] *)
Variable super_install : Flow -> VersionedState -> VersionedValues -> M event unit.

(** What [install] does itself, before it delegates.  The assignment of
    the source changes the object the caller passed; the state returned here
    stands for this object after the step. *)
Definition ownStep (stateValues : option VersionedState)
    (inputValues : VersionedValues) : completion VersionedState :=
  match
    match stateValues with
    | None => Return (emptyState (version inputValues))
    | Some s => if isStateValues s then Return s else Throw (validateState s)
    end
  with
  | Throw e => Throw e
  | Return s => raiseFloor s
  end.

Definition install (flow : Flow) (stateValues : option VersionedState)
    (inputValues : VersionedValues) : M event unit :=
  (tell (Invoke Installation_1_80) ;;
   s <- lift (ownStep stateValues inputValues) ;;
   super_install flow s inputValues)%async.

End Installation.

(** Modelled from the spec: the structural check of [../v1.46/Values], which
    is not part of the sources at hand: a versioned state has a non-empty
    version tag and the expected sub-objects, here the [apiserver] object
    with its [version] string. *)
Definition isStateValues_spec (s : VersionedState) : bool :=
  negb (version s =? "")%string &&
  match property (properties s) "apiserver" with
  | Some (Object apiserver) =>
      match property apiserver "version" with
      | Some (Str _) => true
      | _ => false
      end
  | _ => false
  end.

(** Modelled from the spec: the error of [../v1.46/Values] for a state that
    fails the structural check, which carries a description of what is
    missing. *)
Definition validateState_spec (s : VersionedState) : Exception :=
  mkException "MalformedStateError"
    (if (version s =? "")%string then "missing: version"
     else "missing: apiserver.version").



End V1_80.

(* ================================================================== *)
(** * Part V. The control-plane deployment task                        *)
(* ================================================================== *)

Module GardenerTask.

Definition GardenerVersion : string := "v1.41.1".

Section Task.

(** Types of the collaborators, which the task only passes around. *)
Context {GeneralValues KubeClient KubeConfig Helm Release Rest : Type}.

(** The values of the two charts: the four [kubeconfig] entries under
    [global] that [do] assigns, and everything else. *)
Record Values : Type := mkValues {
  apiserver_kubeconfig : string;
  controller_kubeconfig : string;
  scheduler_kubeconfig : string;
  admission_kubeconfig : string;
  rest : Rest
}.

(** [ApplicationChart] and [RuntimeChart]: a release name and the values
    the chart was built with. *)
Record Chart : Type := mkChart {
  releaseName : string;
  chartValues : Values
}.

Definition ApplicationChart (values : Values) : Chart :=
  mkChart "gardener-application" values.

Definition RuntimeChart (values : Values) : Chart :=
  mkChart "gardener-runtime" values.

(** Calls that leave the task, and the entry of the private method that
    hands out a credential. *)
Inductive event : Type :=
| LogInfo (message : string)
| WaitUntilVirtualClusterIsReady
| GetRelease (chart : Chart)
| CreateOrUpdate (release : Release) (kubeconfig : option KubeConfig)
| RequestKubeConfig (name : string)
| ClusterKubeConfig (namespace name : string).

Record Gardener : Type := mkGardener {
  hostClient : KubeClient;
  helm : Helm;
  values : GeneralValues;
  dryRun : bool;
  virtualClient : option KubeClient
}.

(** The constructor leaves [virtualClient] undefined. *)
Definition new_Gardener (hostClient : KubeClient) (helm : Helm)
    (values : GeneralValues) (dryRun : bool) : Gardener :=
  mkGardener hostClient helm values dryRun None.

(** The collaborators.  Each answer may depend on everything that has
    happened so far. *)
Variable GardenerNamespace : string.
Variable getValues : Gardener -> completion Values.
Variable waitUntilVirtualClusterIsReady :
  list event -> GeneralValues -> completion KubeClient.
Variable getKubeConfig : KubeClient -> KubeConfig.
Variable getRelease : list event -> Chart -> GeneralValues -> completion Release.
Variable createOrUpdate :
  list event -> Helm -> Release -> option KubeConfig -> completion unit.
Variable k8s_getKubeConfigForServiceAccount :
  list event -> KubeClient -> string -> string -> completion KubeConfig.
Variable exportConfig : KubeConfig -> string.

(** An awaited call of a collaborator: it is logged, then it settles. *)
Definition call {A : Type} (e : event) (f : list event -> completion A)
  : M event A :=
  fun log => (log ++ [e], f log).

Definition getKubeConfigForServiceAccount (this : Gardener) (name : string)
  : M event string :=
  (tell (RequestKubeConfig name) ;;
   match virtualClient this with
   | None => ret ("dumy-" ++ name)%string
   | Some client =>
       kc <- call (ClusterKubeConfig GardenerNamespace name)
               (fun log => k8s_getKubeConfigForServiceAccount log client
                             GardenerNamespace name) ;;
       ret (exportConfig kc)
   end)%async.

Definition set_apiserver_kubeconfig (v : Values) (k : string) : Values :=
  mkValues k (controller_kubeconfig v) (scheduler_kubeconfig v)
    (admission_kubeconfig v) (rest v).
Definition set_controller_kubeconfig (v : Values) (k : string) : Values :=
  mkValues (apiserver_kubeconfig v) k (scheduler_kubeconfig v)
    (admission_kubeconfig v) (rest v).
Definition set_scheduler_kubeconfig (v : Values) (k : string) : Values :=
  mkValues (apiserver_kubeconfig v) (controller_kubeconfig v) k
    (admission_kubeconfig v) (rest v).
Definition set_admission_kubeconfig (v : Values) (k : string) : Values :=
  mkValues (apiserver_kubeconfig v) (controller_kubeconfig v)
    (scheduler_kubeconfig v) k (rest v).

(** [do]; the result is the task object as the run leaves it. *)
Definition do (this : Gardener) : M event Gardener :=
  (tell (LogInfo ("Installing Gardener version " ++ GardenerVersion)) ;;
   this <- (if negb (dryRun this) then
              client <- call WaitUntilVirtualClusterIsReady
                          (fun log => waitUntilVirtualClusterIsReady log (values this)) ;;
              ret (mkGardener (hostClient this) (helm this) (values this)
                     (dryRun this) (Some client))
            else ret this) ;;
   tell (LogInfo "Install Gardener Controlplane") ;;
   gardenerValues <- lift (getValues this) ;;
   let applicationHelmChart := ApplicationChart gardenerValues in
   release <- call (GetRelease applicationHelmChart)
                (fun log => getRelease log applicationHelmChart (values this)) ;;
   let kubeconfig := option_map getKubeConfig (virtualClient this) in
   call (CreateOrUpdate release kubeconfig)
     (fun log => createOrUpdate log (helm this) release kubeconfig) ;;
   k <- getKubeConfigForServiceAccount this "gardener-apiserver" ;;
   let gardenerValues := set_apiserver_kubeconfig gardenerValues k in
   k <- getKubeConfigForServiceAccount this "gardener-controller-manager" ;;
   let gardenerValues := set_controller_kubeconfig gardenerValues k in
   k <- getKubeConfigForServiceAccount this "gardener-scheduler" ;;
   let gardenerValues := set_scheduler_kubeconfig gardenerValues k in
   k <- getKubeConfigForServiceAccount this "gardener-admission-controller" ;;
   let gardenerValues := set_admission_kubeconfig gardenerValues k in
   let runtimeHelmChart := RuntimeChart gardenerValues in
   release <- call (GetRelease runtimeHelmChart)
                (fun log => getRelease log runtimeHelmChart (values this)) ;;
   call (CreateOrUpdate release None)
     (fun log => createOrUpdate log (helm this) release None) ;;
   ret this)%async.

(** ** Reading a log *)

Definition isApply (e : event) : bool :=
  match e with CreateOrUpdate _ _ => true | _ => false end.

(** How many charts have been handed to [helm.createOrUpdate]. *)
Definition applies (tr : list event) : nat := List.length (filter isApply tr).

(** The service accounts a credential has been requested for, in order. *)
Definition requests (tr : list event) : list string :=
  flat_map (fun e => match e with RequestKubeConfig n => [n] | _ => [] end) tr.

Definition contactsVirtualCluster (e : event) : bool :=
  match e with
  | WaitUntilVirtualClusterIsReady | ClusterKubeConfig _ _ => true
  | _ => false
  end.

Definition serviceAccounts : list string :=
  ["gardener-apiserver"; "gardener-controller-manager";
   "gardener-scheduler"; "gardener-admission-controller"].

(** A monitor of the two-phase order: credentials are requested and
    fetched only between the first and the second application of a chart,
    and the second application comes after the four requests. *)
Fixpoint ordered (applied : nat) (requested : list string) (tr : list event) : bool :=
  match tr with
  | [] => true
  | CreateOrUpdate _ _ :: r =>
      match applied with
      | 0 => match requested with [] => ordered 1 [] r | _ => false end
      | 1 => if list_eq_dec string_dec requested serviceAccounts
             then ordered 2 requested r else false
      | _ => false
      end
  | RequestKubeConfig n :: r =>
      (applied =? 1)%nat && ordered applied (requested ++ [n]) r
  | ClusterKubeConfig _ _ :: r =>
      (applied =? 1)%nat && ordered applied requested r
  | _ :: r => ordered applied requested r
  end.

End Task.

End GardenerTask.

(* ================================================================== *)
(** * Part VI. Vocabulary of the statements                            *)
(* ================================================================== *)

(** The minor version [m] of a range that reads [>=1.m.0 <1.(m+1).0-0],
    the desugared form of the pattern [1.m.x]. *)
Definition bandOfRange (r : Semver.Range) : option N :=
  match Semver.set r with
  | [[Semver.Cmp Semver.OpGte lo; Semver.Cmp Semver.OpLt hi]] =>
      match Semver.prerelease lo, Semver.prerelease hi with
      | [], [Semver.IdNumber 0%N] =>
          if ((Semver.major lo =? 1) && (Semver.patch lo =? 0) &&
              (Semver.major hi =? 1) && (Semver.minor hi =? Semver.minor lo + 1) &&
              (Semver.patch hi =? 0))%N
          then Some (Semver.minor lo)
          else None
      | _, _ => None
      end
  | _ => None
  end.

Definition bandOfPattern (pattern : string) : option N :=
  match Semver.new_Range pattern with
  | Some r => bandOfRange r
  | None => None
  end.

(** A release [1.m.p]: a version string that parses, has major version 1,
    minor version [m] and no prerelease tag. *)
Definition isReleaseOfBand (V : string) (m : N) : Prop :=
  exists sv, Semver.new_SemVer V = Some sv /\
             Semver.major sv = 1%N /\ Semver.minor sv = m /\
             Semver.prerelease sv = [].

(** The minor versions the registry declares, in declaration order. *)
Definition declaredBands : list N :=
  map N.of_nat (seq 46 50).

(** The pattern the registry declares for the minor version [m]. *)
Definition bandPattern (m : N) : string :=
  "v1." ++ Semver.string_of_N m ++ ".x".

(** [e] is the first element of [l] that satisfies [p]. *)
Definition firstMatch {A : Type} (p : A -> bool) (l : list A) (e : A) : Prop :=
  exists before after,
    l = before ++ e :: after /\ p e = true /\
    forall x, In x before -> p x = false.

(** The three ways [V1_80.raiseFloor] ends. *)
Inductive raiseFloor_spec (s : VersionedState) : completion VersionedState -> Prop :=
| floor_error e :
    exn_name e = "TypeError" ->
    (forall v sv, V1_80.apiserver_version s = Return (Str v) ->
                  Semver.new_SemVer v <> Some sv) ->
    raiseFloor_spec s (Throw e)
| floor_kept v sv :
    V1_80.apiserver_version s = Return (Str v) ->
    Semver.new_SemVer v = Some sv ->
    Semver.compareMain sv V1_80.targetVirtualClusterVersion <> (-1)%Z ->
    raiseFloor_spec s (Return s)
| floor_raised v sv a :
    V1_80.apiserver_version s = Return (Str v) ->
    Semver.new_SemVer v = Some sv ->
    Semver.compareMain sv V1_80.targetVirtualClusterVersion = (-1)%Z ->
    property (properties s) "apiserver" = Some (Object a) ->
    raiseFloor_spec s
      (Return (mkVersioned (version s)
                 (setProperty (properties s) "apiserver"
                    (Object (setProperty a "version" (Str "v1.23.16")))))).

(** What [V1_80.raiseFloor] leaves alone. *)
Definition sameApartFromApiserverVersion (s s' : VersionedState) : Prop :=
  version s' = version s /\
  Object_keys (properties s') = Object_keys (properties s) /\
  (forall k, k <> "apiserver" ->
             property (properties s') k = property (properties s) k) /\
  exists a a',
    property (properties s) "apiserver" = Some (Object a) /\
    property (properties s') "apiserver" = Some (Object a') /\
    Object_keys a' = Object_keys a /\
    forall k, k <> "version" -> property a' k = property a k.

(** All the ways to single out one element of a list. *)
Fixpoint splits {A : Type} (l : list A) : list (list A * A * list A) :=
  match l with
  | [] => []
  | x :: r => ([], x, r) :: map (fun '(l1, e, l2) => (x :: l1, e, l2)) (splits r)
  end.

(** The error of a run was raised before the [install] method of any
    installer was entered. *)
Definition raisedBeforeAnyInstaller (run : list V1_80.event * completion unit) : Prop :=
  (exists e, snd run = Throw e) /\
  forall installer, ~ In (V1_80.Invoke installer) (fst run).

(** Inputs of the scenarios: a prior state with a virtual cluster at 1.20.0,
    one at 1.25.0, one whose version tag is empty, and the desired values
    of version 1.80.3. *)
Definition state_1_20 : VersionedState :=
  mkVersioned "1.74.2"
    [("identity", Object [("name", Str "landscape")]);
     ("apiserver", Object [("version", Str "1.20.0"); ("replicas", Number 3)]);
     ("etcd", Object [("backup", Bool true)])].

Definition state_1_25 : VersionedState :=
  mkVersioned "1.74.2"
    [("identity", Object [("name", Str "landscape")]);
     ("apiserver", Object [("version", Str "1.25.0"); ("replicas", Number 3)]);
     ("etcd", Object [("backup", Bool true)])].

Definition state_untagged : VersionedState :=
  mkVersioned ""
    [("apiserver", Object [("version", Str "1.20.0")])].

Definition values_1_80_3 : VersionedValues :=
  mkVersioned "1.80.3" [].

(** The release line an installer class is imported from
    ([./v1.46/installation], ...). *)
Definition installerMinor (c : InstallationConstructor) : N :=
  match c with
  | Installation_1_46 => 46
  | Installation_1_47 => 47
  | Installation_1_50 => 50
  | Installation_1_51 => 51
  | Installation_1_62 => 62
  | Installation_1_74 => 74
  | Installation_1_80 => 80
  | Installation_1_81 => 81
  | Installation_1_90 => 90
  end.

Definition allInstallers : list InstallationConstructor :=
  [Installation_1_46; Installation_1_47; Installation_1_50; Installation_1_51;
   Installation_1_62; Installation_1_74; Installation_1_80; Installation_1_81;
   Installation_1_90].

(** [c] is the newest installer class that is not newer than the minor
    version [m]. *)
Definition nearestOlderInstaller (c : InstallationConstructor) (m : N) : Prop :=
  (installerMinor c <= m)%N /\
  forall g, (installerMinor g <= m)%N -> (installerMinor g <= installerMinor c)%N.

(** A version is older than 1.23.16 on [major.minor.patch]. *)
Definition olderThanFloor (sv : Semver.SemVer) : Prop :=
  (Semver.major sv < 1 \/
   (Semver.major sv = 1 /\
    (Semver.minor sv < 23 \/
     (Semver.minor sv = 23 /\ Semver.patch sv < 16))))%N.

(** Collaborators of the scenarios: every call succeeds, except that the
    second helm applies nothing. *)
Definition scenario_getValues (_ : @GardenerTask.Gardener unit unit unit)
  : completion (@GardenerTask.Values unit) :=
  Return (GardenerTask.mkValues "dummy" "dummy" "dummy" "dummy" tt).

Definition scenario_wait (_ : list (@GardenerTask.event string string unit)) (_ : unit)
  : completion unit := Return tt.

Definition scenario_getRelease (_ : list (@GardenerTask.event string string unit))
    (c : @GardenerTask.Chart unit) (_ : unit) : completion string :=
  Return (GardenerTask.releaseName c).

Definition scenario_helm (_ : list (@GardenerTask.event string string unit))
    (_ : unit) (_ : string) (_ : option string) : completion unit :=
  Return tt.

Definition scenario_failing_helm (_ : list (@GardenerTask.event string string unit))
    (_ : unit) (_ : string) (_ : option string) : completion unit :=
  Throw (mkException "Error" "apply failed").

Definition scenario_k8s (_ : list (@GardenerTask.event string string unit))
    (_ : unit) (namespace name : string) : completion string :=
  Return (namespace ++ "/" ++ name)%string.


(* ================================================================== *)
(** * Part VII. The semver model: what a band pattern accepts          *)
(* ================================================================== *)

Module SemverFacts.
Import Semver.

Lemma compareNumbers_cases (a b : N) :
  (a < b /\ compareNumbers a b = (-1)%Z)%N \/
  (a = b /\ compareNumbers a b = 0%Z) \/
  (b < a /\ compareNumbers a b = 1%Z)%N.
Proof.
  unfold compareNumbers.
  destruct (N.eqb_spec a b) as [->|Hne]; [right; left; auto|].
  destruct (N.ltb_spec a b); [left; auto | right; right; split; [lia | reflexivity]].
Qed.

Lemma compareIdentifiers_zero (x : Identifier) :
  (compareIdentifiers x (IdNumber 0) <? 0)%Z = false.
Proof.
  unfold compareIdentifiers. cbn [identifierIsNumeric identifierNumber].
  destruct (identifierIsNumeric x) eqn:Hx; cbn [andb negb].
  - destruct (compareNumbers_cases (identifierNumber x) 0) as [[H _]|[[_ ->]|[_ ->]]];
      [lia | reflexivity | reflexivity].
  - destruct (Identifier_eqb x (IdNumber 0)); reflexivity.
Qed.

Lemma comparePreLoop_zero (p : list Identifier) :
  (comparePreLoop p [IdNumber 0] <? 0)%Z = false \/ p = [].
Proof.
  destruct p as [|x rest]; [right; reflexivity | left].
  cbn [comparePreLoop].
  destruct (Identifier_eqb x (IdNumber 0)).
  - destruct rest; reflexivity.
  - apply compareIdentifiers_zero.
Qed.

(** A range [>=1.m.0 <1.(m+1).0-0] accepts exactly the versions [1.m.p]
    without a prerelease tag. *)
Lemma band_range_test (r : Range) (m : N) (v : SemVer) :
  bandOfRange r = Some m ->
  existsb (fun s => testSet s v) (set r) =
  ((major v =? 1) && (minor v =? m) && negb (hasPrerelease v))%N.
Proof.
  unfold bandOfRange. destruct r as [s]. cbn [set].
  destruct s as [|[|[|[] lo] [|[|[] hi] [|]]] [|]]; try discriminate.
  destruct (prerelease lo) as [|] eqn:Hplo; try discriminate.
  destruct (prerelease hi) as [|[[|]|] [|]] eqn:Hphi; try discriminate.
  destruct (N.eqb_spec (major lo) 1) as [Hlo1|]; try discriminate.
  destruct (N.eqb_spec (patch lo) 0) as [Hlo3|]; try discriminate.
  destruct (N.eqb_spec (major hi) 1) as [Hhi1|]; try discriminate.
  destruct (N.eqb_spec (minor hi) (minor lo + 1)) as [Hhi2|]; try discriminate.
  destruct (N.eqb_spec (patch hi) 0) as [Hhi3|]; try discriminate.
  cbn [andb]. intros [= <-].
  cbn [existsb orb]. rewrite orb_false_r.
  unfold testSet. cbn [forallb Comparator_test cmp existsb allowsPrerelease].
  unfold hasPrerelease at 2 3. rewrite Hplo, Hphi. cbn [andb orb].
  unfold compare, compareMain, comparePre. rewrite Hplo, Hphi.
  rewrite Hlo1, Hlo3, Hhi1, Hhi2, Hhi3.
  unfold hasPrerelease.
  destruct (prerelease v) as [|x rest] eqn:Hpv.
  - (* a release *)
    cbn [negb]. rewrite !andb_true_r.
    destruct (compareNumbers_cases (major v) 1) as [[H1 ->]|[[H1 ->]|[H1 ->]]];
    destruct (compareNumbers_cases (minor v) (minor lo)) as [[H2 ->]|[[H2 ->]|[H2 ->]]];
    destruct (compareNumbers_cases (minor v) (minor lo + 1)) as [[H3 ->]|[[H3 ->]|[H3 ->]]];
    destruct (compareNumbers_cases (patch v) 0) as [[H4 ->]|[[H4 ->]|[H4 ->]]];
    try lia;
    cbn;
    repeat match goal with
           | |- context [N.eqb ?a ?b] => destruct (N.eqb_spec a b)
           end; try reflexivity; try lia.
  - (* a prerelease *)
    cbn [negb]. rewrite !andb_false_r.
    destruct (N.eqb_spec 1 (major v)) as [E1|];
      [| cbn [andb orb]; now destruct (_ && _)].
    destruct (N.eqb_spec (minor lo + 1) (minor v)) as [E2|];
      [| cbn [andb orb]; now destruct (_ && _)].
    destruct (N.eqb_spec 0 (patch v)) as [E3|];
      [| cbn [andb orb]; now destruct (_ && _)].
    cbn [andb orb]. rewrite <- E1, <- E2, <- E3.
    destruct (compareNumbers_cases 1 1) as [[H1 _]|[[_ ->]|[H1 _]]]; try lia.
    destruct (compareNumbers_cases (minor lo + 1) (minor lo + 1))
      as [[H2 _]|[[_ ->]|[H2 _]]]; try lia.
    destruct (compareNumbers_cases 0 0) as [[H3 _]|[[_ ->]|[H3 _]]]; try lia.
    cbn [orElse Z.eqb].
    destruct (comparePreLoop_zero (x :: rest)) as [->|]; [|discriminate].
    now rewrite andb_false_r.
Qed.

(** ** Strings that are releases *)

Lemma allChars_append (p : ascii -> bool) (a b : string) :
  allChars p (a ++ b) = allChars p a && allChars p b.
Proof.
  induction a as [|c a IH]; cbn; [reflexivity|].
  now rewrite IH, andb_assoc.
Qed.

Lemma allChars_impl (p q : ascii -> bool) (s : string) :
  (forall c, p c = true -> q c = true) ->
  allChars p s = true -> allChars q s = true.
Proof.
  intros Hpq. induction s as [|c s IH]; cbn; [reflexivity|].
  intros H. apply andb_prop in H. destruct H as [Hc Hs].
  now rewrite (Hpq c Hc), IH.
Qed.

Lemma digit_notSpace (c : ascii) : isDigit c = true -> notSpace c = true.
Proof.
  unfold isDigit, notSpace, isSpace. intros H.
  apply andb_prop in H. destruct H as [H1 H2].
  apply N.leb_le in H1. apply N.leb_le in H2.
  destruct (N.leb_spec 9 (N_of_ascii c)); destruct (N.leb_spec (N_of_ascii c) 13);
    destruct (N.eqb_spec (N_of_ascii c) 32); cbn; try reflexivity; lia.
Qed.

Lemma trimEnd_notSpace (s : string) :
  allChars notSpace s = true -> trimEnd s = s.
Proof.
  induction s as [|c s IH]; cbn; [reflexivity|].
  intros H. apply andb_prop in H. destruct H as [Hc Hs].
  rewrite (IH Hs). unfold notSpace in Hc. apply negb_true_iff in Hc.
  rewrite Hc. now destruct s.
Qed.

Lemma trim_notSpace (s : string) :
  allChars notSpace s = true -> trim s = s.
Proof.
  intros H. unfold trim.
  assert (Hs : trimStart s = s).
  { destruct s as [|c s]; [reflexivity|]. cbn in *.
    apply andb_prop in H. destruct H as [Hc _].
    unfold notSpace in Hc. apply negb_true_iff in Hc. now rewrite Hc. }
  rewrite Hs. now apply trimEnd_notSpace.
Qed.

Lemma span_digits_end (s : string) :
  allChars isDigit s = true -> span isDigit s = (s, "").
Proof.
  induction s as [|c s IH]; cbn; [reflexivity|].
  intros H. apply andb_prop in H. destruct H as [Hc Hs].
  now rewrite Hc, (IH Hs).
Qed.

Lemma span_digits_dot (a rest : string) :
  allChars isDigit a = true ->
  span isDigit (a ++ String "." rest) = (a, String "." rest).
Proof.
  induction a as [|c a IH]; cbn; [reflexivity|].
  intros H. apply andb_prop in H. destruct H as [Hc Ha].
  now rewrite Hc, (IH Ha).
Qed.

Lemma numericIdentifier_digits (s : string) :
  isNumericIdentifier s = true -> allChars isDigit s = true.
Proof.
  destruct s as [|c s]; [discriminate|]. unfold isNumericIdentifier.
  intros H. apply andb_prop in H. now destruct H.
Qed.

Lemma digitValue_le (c : ascii) : isDigit c = true -> (digitValue c <= 9)%N.
Proof.
  unfold isDigit, digitValue. intros H. apply andb_prop in H. destruct H as [H1 H2].
  apply N.leb_le in H1. apply N.leb_le in H2. lia.
Qed.

Lemma digitsValue_bound (s : string) (acc : N) :
  allChars isDigit s = true ->
  (digitsValue acc s < (acc + 1) * 10 ^ N.of_nat (String.length s))%N.
Proof.
  revert acc. induction s as [|c s IH]; intros acc; cbn [digitsValue String.length allChars].
  - intros _. cbn. lia.
  - intros H. apply andb_prop in H. destruct H as [Hc Hs].
    specialize (IH (10 * acc + digitValue c)%N Hs).
    pose proof (digitValue_le c Hc) as Hd.
    rewrite Nat2N.inj_succ, N.pow_succ_r'.
    eapply N.lt_le_trans; [exact IH|].
    rewrite (N.mul_comm 10), N.mul_assoc. apply N.mul_le_mono_r. lia.
Qed.

Lemma digits_safe (s : string) :
  allChars isDigit s = true -> (String.length s <= 15)%nat ->
  toNumber s = digitsValue 0 s /\ (toNumber s <= MAX_SAFE_INTEGER)%N.
Proof.
  intros Hs Hlen. pose proof (digitsValue_bound s 0 Hs) as Hb.
  assert (Hpow : (10 ^ N.of_nat (String.length s) <= 10 ^ 15)%N)
    by (apply N.pow_le_mono_r; lia).
  assert (H15 : (10 ^ 15 < 2 ^ 53)%N) by (vm_compute; reflexivity).
  assert (Hlt : (digitsValue 0 s < 2 ^ 53)%N) by lia.
  unfold toNumber, toDouble. apply N.ltb_lt in Hlt as Hlt'. rewrite Hlt'.
  split; [reflexivity|]. unfold MAX_SAFE_INTEGER.
  change (2 ^ 53)%N with 9007199254740992%N in Hlt. lia.
Qed.

Lemma digit_not_v (c : ascii) (r : string) :
  isDigit c = true ->
  match String c r with String "v" r' => r' | _ => String c r end = String c r.
Proof.
  destruct c as [[] [] [] [] [] [] [] []]; try reflexivity; discriminate.
Qed.

(** Three numeric identifiers of at most 15 digits, separated by dots,
    are a version with these components and no prerelease tag. *)
Lemma new_SemVer_release (a b c : string) :
  isNumericIdentifier a = true -> isNumericIdentifier b = true ->
  isNumericIdentifier c = true ->
  (String.length a <= 15)%nat -> (String.length b <= 15)%nat ->
  (String.length c <= 15)%nat ->
  new_SemVer (a ++ String "." (b ++ String "." c)) =
  Some {| raw := (a ++ String "." (b ++ String "." c))%string;
          major := digitsValue 0 a; minor := digitsValue 0 b;
          patch := digitsValue 0 c; prerelease := []; build := [] |}.
Proof.
  intros Na Nb Nc La Lb Lc.
  pose proof (numericIdentifier_digits a Na) as Da.
  pose proof (numericIdentifier_digits b Nb) as Db.
  pose proof (numericIdentifier_digits c Nc) as Dc.
  destruct (digits_safe a Da La) as [Va Sa].
  destruct (digits_safe b Db Lb) as [Vb Sb].
  destruct (digits_safe c Dc Lc) as [Vc Sc].
  unfold new_SemVer.
  assert (Hlen : (MAX_LENGTH <? String.length (a ++ String "." (b ++ String "." c)))%nat = false).
  { apply Nat.ltb_ge. unfold MAX_LENGTH.
    assert (L : forall x y : string,
               String.length (x ++ y) = String.length x + String.length y).
    { intros x y. induction x as [|ch x IH]; cbn; [reflexivity | now rewrite IH]. }
    rewrite L. cbn [String.length]. rewrite L. cbn [String.length]. lia. }
  rewrite Hlen.
  assert (Htrim : trim (a ++ String "." (b ++ String "." c)) =
                  (a ++ String "." (b ++ String "." c))%string).
  { apply trim_notSpace. rewrite allChars_append. cbn [allChars].
    rewrite allChars_append. cbn [allChars].
    rewrite (allChars_impl _ _ a digit_notSpace Da),
            (allChars_impl _ _ b digit_notSpace Db),
            (allChars_impl _ _ c digit_notSpace Dc).
    reflexivity. }
  rewrite Htrim.
  assert (Hmatch : matchFull (a ++ String "." (b ++ String "." c)) =
                   Some (mkFullMatch a b c None None)).
  { unfold matchFull.
    destruct a as [|ch a']; [discriminate|].
    cbn [append]. rewrite digit_not_v
      by (cbn in Da; apply andb_prop in Da; now destruct Da).
    change (String ch (a' ++ String "." (b ++ String "." c)))%string
      with (String ch a' ++ String "." (b ++ String "." c))%string.
    rewrite (span_digits_dot _ _ Da).
    rewrite (span_digits_dot _ _ Db).
    rewrite (span_digits_end _ Dc).
    rewrite Na, Nb, Nc. reflexivity. }
  rewrite Hmatch. cbn [m1 m2 m3 m4 m5].
  assert (Hsafe : forall n, (n <= MAX_SAFE_INTEGER)%N -> (MAX_SAFE_INTEGER <? n)%N = false)
    by (intros n Hn; apply N.ltb_ge; exact Hn).
  rewrite (Hsafe _ Sa), (Hsafe _ Sb), (Hsafe _ Sc). cbn [orb].
  now rewrite Va, Vb, Vc.
Qed.


End SemverFacts.

(* ================================================================== *)
(** * Part VIII. The registry and the resolver                         *)
(* ================================================================== *)

Module Registry.
Import Semver.

(** Looking a key up by [find] over [Object.keys] and then reading the
    property yields the first entry whose key passes the test. *)
Lemma find_keys_first {A : Type} (p : string -> bool) (o : list (string * A)) (k : string) :
  find p (Object_keys o) = Some k ->
  exists e, firstMatch (fun e => p (fst e)) o e /\ fst e = k /\
            property o k = Some (snd e).
Proof.
  unfold Object_keys.
  induction o as [|[k' v] o IH]; cbn [map find fst]; [discriminate|].
  destruct (p k') eqn:Hp.
  - intros [= <-]. exists (k', v). split; [|split].
    + exists [], o. cbn. repeat split; auto. intros x [].
    + reflexivity.
    + cbn. now rewrite String.eqb_refl.
  - intros H. destruct (IH H) as (e & (before & after & -> & He & Hb) & Hk & Hprop).
    exists e. split; [|split]; auto.
    + exists ((k', v) :: before), after. cbn. repeat split; auto.
      intros x [<-|Hx]; [exact Hp | now apply Hb].
    + cbn [property]. destruct (String.eqb_spec k' k) as [->|]; [|exact Hprop].
      rewrite <- Hk in Hp. cbn in He. congruence.
Qed.

Lemma length_append (a b : string) :
  String.length (a ++ b) = String.length a + String.length b.
Proof. induction a as [|c a IH]; cbn; [reflexivity | now rewrite IH]. Qed.

Lemma append_cancel_r (s a b : string) :
  (a ++ s)%string = (b ++ s)%string -> a = b.
Proof.
  revert b. induction a as [|c a IH]; intros [|d b] H; cbn in H.
  - reflexivity.
  - exfalso. apply (f_equal String.length) in H. cbn in H.
    rewrite length_append in H. lia.
  - exfalso. apply (f_equal String.length) in H. cbn in H.
    rewrite length_append in H. lia.
  - injection H as -> H. f_equal. now apply IH.
Qed.

Lemma find_keys_none {A : Type} (p : string -> bool) (o : list (string * A)) :
  find p (Object_keys o) = None ->
  forall e, In e o -> p (fst e) = false.
Proof.
  intros H e He. apply (find_none _ _ H). unfold Object_keys. now apply in_map.
Qed.

Lemma firstMatch_In {A : Type} (p : A -> bool) (l : list A) (e : A) :
  firstMatch p l e -> In e l /\ p e = true.
Proof.
  intros (before & after & -> & He & _). split; [|exact He].
  apply in_or_app. right. now left.
Qed.

(** Every pattern of the registry lies in the modelled fragment of the
    range grammar and desugars to [>=1.m.0 <1.(m+1).0-0], with [m] running
    from 46 to 95 in declaration order. *)
Lemma versions_ranges :
  map bandOfPattern (Object_keys versions) = map Some declaredBands.
Proof. vm_compute. reflexivity. Qed.

Lemma versions_keys :
  Object_keys versions = map bandPattern declaredBands.
Proof. vm_compute. reflexivity. Qed.

Definition option_N_eqb (a b : option N) : bool :=
  match a, b with
  | Some x, Some y => (x =? y)%N
  | None, None => true
  | _, _ => false
  end.

Lemma versions_band_of_key (r : string) :
  In r (Object_keys versions) ->
  exists m, bandOfPattern r = Some m /\ In m declaredBands.
Proof.
  intros Hr.
  assert (H : In (bandOfPattern r) (map Some declaredBands)).
  { rewrite <- versions_ranges. now apply in_map. }
  apply in_map_iff in H. destruct H as (m & Hm & Hin). now exists m.
Qed.

(** Two different patterns of the registry denote different bands. *)
Lemma versions_bands_distinct (r1 r2 : string) :
  In r1 (Object_keys versions) -> In r2 (Object_keys versions) ->
  bandOfPattern r1 = bandOfPattern r2 -> r1 = r2.
Proof.
  assert (H : forallb (fun a => forallb (fun b =>
                (a =? b)%string || negb (option_N_eqb (bandOfPattern a) (bandOfPattern b)))
                (Object_keys versions)) (Object_keys versions) = true)
    by (vm_compute; reflexivity).
  rewrite forallb_forall in H.
  intros H1 H2 Hb. specialize (H r1 H1). rewrite forallb_forall in H.
  specialize (H r2 H2). rewrite Hb in H.
  destruct (String.eqb_spec r1 r2); [assumption|].
  cbn in H. destruct (bandOfPattern r2); cbn in H;
    [rewrite N.eqb_refl in H|]; discriminate.
Qed.

(** A pattern [1.m.x] is satisfied by exactly the releases [1.m.p]. *)
Lemma satisfies_band (V r : string) (m : N) :
  bandOfPattern r = Some m ->
  satisfies V r = true <-> isReleaseOfBand V m.
Proof.
  unfold bandOfPattern, satisfies, isReleaseOfBand.
  destruct (new_Range r) as [rg|]; [|discriminate]. intros Hm.
  unfold Range_test.
  assert (Hempty : new_SemVer "" = None) by reflexivity.
  destruct V as [|c V'] eqn:HV.
  - rewrite Hempty. split; [discriminate | intros (sv & H & _); discriminate].
  - rewrite <- HV. clear HV.
    destruct (new_SemVer V) as [sv|]; [|split; [discriminate | intros (sv & H & _); discriminate]].
    rewrite (SemverFacts.band_range_test rg m sv Hm).
    unfold hasPrerelease. split.
    + intros H. apply andb_prop in H. destruct H as [H H3].
      apply andb_prop in H. destruct H as [H1 H2].
      exists sv. apply N.eqb_eq in H1, H2.
      destruct (prerelease sv); [auto | discriminate].
    + intros (sv' & [= <-] & H1 & H2 & H3).
      rewrite H1, H2, H3, !N.eqb_refl. reflexivity.
Qed.

(** The decimal form of a declared minor version is a numeric identifier
    that denotes it, and its pattern desugars to its band. *)
Lemma declared_band (m : N) :
  In m declaredBands ->
  In (bandPattern m) (Object_keys versions) /\
  bandOfPattern (bandPattern m) = Some m /\
  isNumericIdentifier (string_of_N m) = true /\
  digitsValue 0 (string_of_N m) = m /\
  (String.length (string_of_N m) <= 15)%nat.
Proof.
  intros Hm.
  assert (H : forallb (fun m =>
                option_N_eqb (bandOfPattern (bandPattern m)) (Some m) &&
                isNumericIdentifier (string_of_N m) &&
                (digitsValue 0 (string_of_N m) =? m)%N &&
                (String.length (string_of_N m) <=? 15)%nat) declaredBands = true)
    by (vm_compute; reflexivity).
  rewrite forallb_forall in H. specialize (H m Hm).
  apply andb_prop in H. destruct H as [H H4].
  apply andb_prop in H. destruct H as [H H3].
  apply andb_prop in H. destruct H as [H1 H2].
  split; [rewrite versions_keys; now apply in_map|].
  split; [|split; [exact H2 | split; [now apply N.eqb_eq | now apply Nat.leb_le]]].
  destruct (bandOfPattern (bandPattern m)) as [x|]; [|discriminate].
  cbn in H1. apply N.eqb_eq in H1. now subst.
Qed.

Lemma versions_property (e : string * InstallationConstructor) :
  In e versions -> property versions (fst e) = Some (snd e).
Proof.
  assert (H : Forall (fun e => property versions (fst e) = Some (snd e)) versions)
    by (repeat (constructor; [reflexivity|]); constructor).
  rewrite Forall_forall in H. apply H.
Qed.

(** A release of a declared band resolves to the factory of that band. *)
Lemma getInstallation_band (V r : string) (m : N) :
  In r (Object_keys versions) -> bandOfPattern r = Some m ->
  isReleaseOfBand V m ->
  getInstallation V = Return (property versions r).
Proof.
  intros Hr Hm Hrel. unfold getInstallation.
  destruct (find (fun v => satisfies V v) (Object_keys versions)) as [k|] eqn:Hfind.
  - destruct (find_some _ _ Hfind) as [Hk Hsat].
    destruct (versions_band_of_key k Hk) as (m' & Hm' & _).
    apply (satisfies_band V k m' Hm') in Hsat.
    destruct Hrel as (sv & P & _ & M & _), Hsat as (sv' & P' & _ & M' & _).
    assert (m' = m) by congruence. subst m'.
    now rewrite (versions_bands_distinct k r Hk Hr) by congruence.
  - apply (satisfies_band V r m Hm) in Hrel.
    rewrite (find_none _ _ Hfind r Hr) in Hrel. discriminate.
Qed.

(** Any patch number written in decimal gives a release of its band. *)
Lemma release_of_band (m : N) (p : string) :
  In m declaredBands ->
  isNumericIdentifier p = true -> (String.length p <= 15)%nat ->
  isReleaseOfBand ("1." ++ string_of_N m ++ "." ++ p) m.
Proof.
  intros Hm Hp Lp. destruct (declared_band m Hm) as (_ & _ & Nm & Vm & Lm).
  exists {| raw := ("1" ++ String "." (string_of_N m ++ String "." p))%string;
            major := digitsValue 0 "1"; minor := digitsValue 0 (string_of_N m);
            patch := digitsValue 0 p; prerelease := []; build := [] |}.
  split; [|cbn; auto].
  change ("1." ++ string_of_N m ++ "." ++ p)%string
    with ("1" ++ String "." (string_of_N m ++ "." ++ p))%string.
  replace (string_of_N m ++ "." ++ p)%string
    with (string_of_N m ++ String "." p)%string by reflexivity.
  apply SemverFacts.new_SemVer_release; auto. cbn. lia.
Qed.

End Registry.

(* ================================================================== *)
(** * Part IX. Resolution: first match, errors, disjoint bands         *)
(* ================================================================== *)

(** C1.  [getInstallation V] scans the registry in declaration order (the
    keys are the patterns v1.46.x, ..., v1.95.x in this order); each
    pattern v1.m.x is satisfied by exactly the releases 1.m.p, and is
    satisfied by every version written 1.m.p with a patch number [p] of up
    to 15 digits, but by no prerelease; a release of a declared band resolves
    to the factory bound to that band; and in general the result is the
    factory of the first entry whose pattern [V] satisfies, or, when no
    pattern is satisfied, the exception [VersionNotFound V]. *)
Theorem getInstallation_first_match (V : string) :
  Object_keys versions = map bandPattern declaredBands /\
  hd_error (Object_keys versions) = Some "v1.46.x" /\
  last (Object_keys versions) "" = "v1.95.x" /\
  (forall e, In e versions ->
     exists m, bandOfPattern (fst e) = Some m /\
               (Semver.satisfies V (fst e) = true <-> isReleaseOfBand V m)) /\
  (forall m p, In m declaredBands ->
     Semver.isNumericIdentifier p = true -> (String.length p <= 15)%nat ->
     Semver.satisfies ("1." ++ Semver.string_of_N m ++ "." ++ p) (bandPattern m) = true) /\
  Semver.satisfies "1.74.0" "v1.74.x" = true /\
  Semver.satisfies "1.74.17" "v1.74.x" = true /\
  Semver.satisfies "v1.74.3+build.7" "v1.74.x" = true /\
  Semver.satisfies "1.74.0-rc.1" "v1.74.x" = false /\
  (forall e m, In e versions -> bandOfPattern (fst e) = Some m ->
     isReleaseOfBand V m -> getInstallation V = Return (Some (snd e))) /\
  ((exists e, firstMatch (fun e => Semver.satisfies V (fst e)) versions e /\
              getInstallation V = Return (Some (snd e)))
   \/
   ((forall e, In e versions -> Semver.satisfies V (fst e) = false) /\
    getInstallation V = Throw (VersionNotFound V))).
Proof.
  split; [exact Registry.versions_keys|].
  split; [reflexivity|]. split; [reflexivity|].
  split.
  { intros e He.
    destruct (Registry.versions_band_of_key (fst e)) as (m & Hm & _).
    - unfold Object_keys. now apply in_map.
    - exists m. split; [exact Hm|]. now apply Registry.satisfies_band. }
  split.
  { intros m p Hm Hp Lp.
    destruct (Registry.declared_band m Hm) as (_ & Hband & _).
    apply (Registry.satisfies_band _ _ m Hband).
    now apply Registry.release_of_band. }
  split; [vm_compute; reflexivity|].
  split; [vm_compute; reflexivity|].
  split; [vm_compute; reflexivity|].
  split; [vm_compute; reflexivity|].
  split.
  { intros e m He Hm Hrel.
    rewrite <- (Registry.versions_property e He).
    apply (Registry.getInstallation_band V (fst e) m); auto.
    unfold Object_keys. now apply in_map. }
  unfold getInstallation.
  destruct (find (fun v => Semver.satisfies V v) (Object_keys versions)) as [k|] eqn:Hfind.
  - left. destruct (Registry.find_keys_first _ _ _ Hfind) as (e & Hfirst & _ & Hprop).
    exists e. split; [exact Hfirst|]. now rewrite Hprop.
  - right. split; [|reflexivity].
    exact (Registry.find_keys_none _ _ Hfind).
Qed.

(** C2.  [getInstallation V] throws exactly when [V] satisfies no declared
    pattern, and what it throws is [VersionNotFound V], whose message names
    [V] and nothing else; when [V] satisfies some declared pattern a
    factory is returned; resolving 1.96.0 throws VersionNotFound for
    1.96.0. *)
Theorem getInstallation_VersionNotFound (V : string) :
  (getInstallation V = Throw (VersionNotFound V) <->
   forall r, In r (Object_keys versions) -> Semver.satisfies V r = false) /\
  (forall e, getInstallation V = Throw e -> e = VersionNotFound V) /\
  ((exists r, In r (Object_keys versions) /\ Semver.satisfies V r = true) ->
   exists f, getInstallation V = Return (Some f)) /\
  exn_message (VersionNotFound V) = ("Version " ++ V ++ " not found")%string /\
  (forall W, VersionNotFound W = VersionNotFound V -> W = V) /\
  getInstallation "1.96.0" = Throw (VersionNotFound "1.96.0") /\
  exn_message (VersionNotFound "1.96.0") = "Version 1.96.0 not found".
Proof.
  assert (Hcases :
    (exists k f, find (fun v => Semver.satisfies V v) (Object_keys versions) = Some k /\
                 In k (Object_keys versions) /\ Semver.satisfies V k = true /\
                 getInstallation V = Return (Some f)) \/
    (find (fun v => Semver.satisfies V v) (Object_keys versions) = None /\
     getInstallation V = Throw (VersionNotFound V))).
  { unfold getInstallation.
    destruct (find (fun v => Semver.satisfies V v) (Object_keys versions)) as [k|] eqn:Hfind.
    - left. destruct (Registry.find_keys_first _ _ _ Hfind) as (e & _ & _ & Hprop).
      destruct (find_some _ _ Hfind) as [Hin Hsat].
      exists k, (snd e). rewrite Hprop. auto.
    - right. auto. }
  split; [|split; [|split; [|split; [|split; [|split]]]]].
  - split.
    + intros Hthrow r Hr.
      destruct Hcases as [(k & f & _ & _ & _ & Hret)|[Hnone _]]; [congruence|].
      exact (find_none _ _ Hnone r Hr).
    + intros Hall.
      destruct Hcases as [(k & f & _ & Hin & Hsat & _)|[_ Hthrow]]; [|exact Hthrow].
      rewrite (Hall k Hin) in Hsat. discriminate.
  - intros e He.
    destruct Hcases as [(k & f & _ & _ & _ & Hret)|[_ Hthrow]]; congruence.
  - intros (r & Hr & Hsat).
    destruct Hcases as [(k & f & _ & _ & _ & Hret)|[Hnone _]]; [now exists f|].
    rewrite (find_none _ _ Hnone r Hr) in Hsat. discriminate.
  - reflexivity.
  - unfold VersionNotFound. intros W [= H].
    exact (Registry.append_cancel_r _ _ _ H).
  - vm_compute. reflexivity.
  - reflexivity.
Qed.

(** C4.  The declared range patterns are pairwise disjoint: no version
    string satisfies two different patterns of the registry. *)
Theorem versions_pairwise_disjoint (V r1 r2 : string) :
  In r1 (Object_keys versions) ->
  In r2 (Object_keys versions) ->
  r1 <> r2 ->
  ~ (Semver.satisfies V r1 = true /\ Semver.satisfies V r2 = true).
Proof.
  intros H1 H2 Hne [S1 S2].
  destruct (Registry.versions_band_of_key r1 H1) as (m1 & B1 & _).
  destruct (Registry.versions_band_of_key r2 H2) as (m2 & B2 & _).
  apply (Registry.satisfies_band V r1 m1 B1) in S1.
  apply (Registry.satisfies_band V r2 m2 B2) in S2.
  destruct S1 as (sv1 & P1 & _ & M1 & _), S2 as (sv2 & P2 & _ & M2 & _).
  apply Hne, Registry.versions_bands_distinct; auto. congruence.
Qed.

Lemma versions_pairwise_disjoint_witness :
  ~ (Semver.satisfies "1.74.3" "v1.74.x" = true /\
     Semver.satisfies "1.74.3" "v1.75.x" = true).
Proof.
  apply (versions_pairwise_disjoint "1.74.3" "v1.74.x" "v1.75.x").
  - vm_compute. tauto.
  - vm_compute. tauto.
  - discriminate.
Defined.

(** C7.  [convertStateValues state targetVersion] returns [state] unchanged
    when the state's own version tag satisfies some registered pattern and
    throws [VersionNotFound] for that tag otherwise; [targetVersion] plays
    no part in the outcome. *)
Theorem convertStateValues_passthrough (state : VersionedState) (targetVersion : string) :
  (convertStateValues state targetVersion = Return state <->
   exists r, In r (Object_keys versions) /\ Semver.satisfies (version state) r = true) /\
  (convertStateValues state targetVersion = Throw (VersionNotFound (version state)) <->
   forall r, In r (Object_keys versions) -> Semver.satisfies (version state) r = false) /\
  (convertStateValues state targetVersion = Return state \/
   convertStateValues state targetVersion = Throw (VersionNotFound (version state))) /\
  (forall otherTarget,
     convertStateValues state otherTarget = convertStateValues state targetVersion).
Proof.
  unfold convertStateValues.
  destruct (find (fun v => Semver.satisfies (version state) v) (Object_keys versions))
    as [k|] eqn:Hfind.
  - destruct (find_some _ _ Hfind) as [Hin Hsat].
    split; [|split; [|split]].
    + split; [intros _; now exists k | reflexivity].
    + split; [discriminate|]. intros Hall. rewrite (Hall k Hin) in Hsat. discriminate.
    + now left.
    + reflexivity.
  - split; [|split; [|split]].
    + split; [discriminate|]. intros (r & Hr & Hsat).
      rewrite (find_none _ _ Hfind r Hr) in Hsat. discriminate.
    + split; [intros _; exact (find_none _ _ Hfind) | reflexivity].
    + now right.
    + reflexivity.
Qed.

(* ================================================================== *)
(** * Part X. The v1.80 installer: floor, frame, validation            *)
(* ================================================================== *)

Module ObjectFacts.

Lemma property_setProperty_same {A : Type} (o : list (string * A)) (k : string) (v : A) :
  property (setProperty o k v) k = Some v.
Proof.
  induction o as [|[k' v'] o IH]; cbn.
  - now rewrite String.eqb_refl.
  - destruct (String.eqb_spec k' k) as [->|Hne]; cbn.
    + now rewrite String.eqb_refl.
    + destruct (String.eqb_spec k' k); [contradiction | exact IH].
Qed.

Lemma property_setProperty_other {A : Type} (o : list (string * A)) (k k' : string) (v : A) :
  k' <> k -> property (setProperty o k v) k' = property o k'.
Proof.
  intros Hne. induction o as [|[k0 v0] o IH]; cbn.
  - destruct (String.eqb_spec k k'); [congruence | reflexivity].
  - destruct (String.eqb_spec k0 k) as [->|Hk]; cbn.
    + destruct (String.eqb_spec k k'); [congruence | reflexivity].
    + destruct (String.eqb_spec k0 k'); [reflexivity | exact IH].
Qed.

(** Assigning to a property the object already has keeps the order of
    its keys. *)
Lemma keys_setProperty {A : Type} (o : list (string * A)) (k : string) (v : A) :
  property o k <> None -> Object_keys (setProperty o k v) = Object_keys o.
Proof.
  unfold Object_keys. induction o as [|[k' v'] o IH]; cbn.
  - congruence.
  - destruct (String.eqb_spec k' k) as [->|Hk]; cbn; [reflexivity|].
    intros H. f_equal. now apply IH.
Qed.

End ObjectFacts.

Module V1_80Facts.
Import V1_80 ObjectFacts.

Lemma target_parses :
  Semver.new_SemVer "v1.23.16" = Some targetVirtualClusterVersion.
Proof. vm_compute. reflexivity. Qed.

(** A version string can only be read from an [apiserver] object that has
    a [version] property. *)
Lemma apiserver_version_Str (s : VersionedState) (v : string) :
  apiserver_version s = Return (Str v) ->
  exists a, property (properties s) "apiserver" = Some (Object a) /\
            property a "version" = Some (Str v).
Proof.
  unfold apiserver_version.
  destruct (property (properties s) "apiserver") as [[| | | | |a|]|]; try discriminate.
  destruct (property a "version") as [x|] eqn:Hx; [|discriminate].
  intros [= ->]. now exists a.
Qed.

Lemma raiseFloor_cases (s : VersionedState) : raiseFloor_spec s (raiseFloor s).
Proof.
  unfold raiseFloor.
  destruct (apiserver_version s) as [x|e] eqn:Hread.
  - destruct x as [| | | |v| |];
      try (cbn; apply floor_error; [reflexivity | intros v' sv' Hv'; congruence]).
    cbn [new_SemVer].
    destruct (Semver.new_SemVer v) as [sv|] eqn:Hparse.
    + destruct (Z.eqb_spec (Semver.compareMain sv targetVirtualClusterVersion) (-1)) as [Hlt|Hge].
      * destruct (apiserver_version_Str s v Hread) as (a & Ha & _).
        unfold set_apiserver_version. rewrite Ha. cbn [Semver.raw targetVirtualClusterVersion].
        now apply (floor_raised s v sv a).
      * now apply (floor_kept s v sv).
    + apply floor_error; [reflexivity|]. intros v' sv' Hv'. congruence.
  - apply floor_error.
    + unfold apiserver_version in Hread.
      destruct (property (properties s) "apiserver") as [[| | | | |a|]|];
        try discriminate; now injection Hread as <-.
    + intros v sv Hv. congruence.
Qed.

Lemma raiseFloor_frame (s s' : VersionedState) :
  raiseFloor s = Return s' -> sameApartFromApiserverVersion s s'.
Proof.
  intros H. pose proof (raiseFloor_cases s) as Hc. rewrite H in Hc.
  inversion Hc as [| v sv Hread Hparse Hcmp Heq | v sv a Hread Hparse Hcmp Ha Heq]; subst.
  - destruct (apiserver_version_Str s' v Hread) as (a & Ha & _).
    repeat split; auto. exists a, a. auto.
  - destruct (apiserver_version_Str s v Hread) as (a0 & Ha0 & Hv).
    assert (a0 = a) by congruence. subst a0.
    unfold sameApartFromApiserverVersion. cbn [version properties].
    split; [reflexivity|]. split; [|split].
    + apply keys_setProperty. congruence.
    + intros k Hk. now apply property_setProperty_other.
    + exists a, (setProperty a "version" (Str "v1.23.16")).
      split; [exact Ha|]. split; [apply property_setProperty_same|].
      split; [apply keys_setProperty; congruence|].
      intros k Hk. now apply property_setProperty_other.
Qed.

End V1_80Facts.

Section V1_80_Installer.
Import V1_80 V1_80Facts.

Variable Flow : Type.
Variable emptyState : string -> VersionedState.
Variable isStateValues : VersionedState -> bool.
Variable validateState : VersionedState -> Exception.
Variable super_install : Flow -> VersionedState -> VersionedValues -> M event unit.

Local Abbreviation ownStep := (V1_80.ownStep emptyState isStateValues validateState).
Local Abbreviation install :=
  (V1_80.install Flow emptyState isStateValues validateState super_install).

(** [install] enters the v1.80 installer, runs its own step and, when that
    step returns a state, hands exactly this state to the parent class
    once. *)
Lemma install_delegates flow stateValues inputValues s' log :
  ownStep stateValues inputValues = Return s' ->
  install flow stateValues inputValues log =
  super_install flow s' inputValues (log ++ [Invoke Installation_1_80]).
Proof.
  intros H. unfold V1_80.install, bind, tell, lift. now rewrite H.
Qed.

Lemma install_throws flow stateValues inputValues e log :
  ownStep stateValues inputValues = Throw e ->
  install flow stateValues inputValues log =
  (log ++ [Invoke Installation_1_80], Throw e).
Proof.
  intros H. unfold V1_80.install, bind, tell, lift. now rewrite H.
Qed.

(** C3 (amended).  For a validated prior state whose apiserver version is
    older than the floor on major.minor.patch, the own step of the v1.80
    installer sets the apiserver version to the floor as the source
    writes it, the string v1.23.16, which denotes a version equal to the
    floor on major.minor.patch, and then delegates with this state. *)
Theorem install_raises_floor flow (s : VersionedState) inputValues v sv :
  isStateValues s = true ->
  apiserver_version s = Return (Str v) ->
  Semver.new_SemVer v = Some sv ->
  Semver.compareMain sv targetVirtualClusterVersion = (-1)%Z ->
  exists s' floor,
    ownStep (Some s) inputValues = Return s' /\
    apiserver_version s' = Return (Str "v1.23.16") /\
    Semver.new_SemVer "v1.23.16" = Some floor /\
    Semver.compareMain floor targetVirtualClusterVersion = 0%Z /\
    sameApartFromApiserverVersion s s' /\
    forall log,
      install flow (Some s) inputValues log =
      super_install flow s' inputValues (log ++ [Invoke Installation_1_80]).
Proof.
  intros Hvalid Hread Hparse Hcmp.
  assert (Hstep : ownStep (Some s) inputValues = raiseFloor s)
    by (unfold V1_80.ownStep; now rewrite Hvalid).
  pose proof (raiseFloor_cases s) as Hc.
  inversion Hc as [e He Hno Heq | v' sv' Hread' Hparse' Hcmp' Heq
                  | v' sv' a Hread' Hparse' Hcmp' Ha Heq].
  - exfalso. exact (Hno v sv Hread Hparse).
  - exfalso. assert (v' = v) by congruence. subst v'.
    assert (sv' = sv) by congruence. subst sv'. contradiction.
  - symmetry in Heq.
    eexists. exists targetVirtualClusterVersion.
    split; [rewrite Hstep; exact Heq|].
    split.
    { unfold apiserver_version. cbn [properties].
      rewrite ObjectFacts.property_setProperty_same.
      now rewrite ObjectFacts.property_setProperty_same. }
    split; [exact target_parses|].
    split; [reflexivity|].
    split; [now apply raiseFloor_frame|].
    intros log. apply install_delegates. rewrite Hstep. exact Heq.
Qed.

(** C10.  For a validated prior state whose apiserver version is at or
    above the floor on major.minor.patch the own step of the v1.80
    installer returns the state as it is; and whatever the version, the
    state it hands on differs from the prior state in nothing but
    apiserver.version: same version tag, same keys in the same order,
    same value under every other key and under every other key of the
    apiserver object. *)
Theorem ownStep_frame (s : VersionedState) inputValues v sv :
  isStateValues s = true ->
  apiserver_version s = Return (Str v) ->
  Semver.new_SemVer v = Some sv ->
  exists s',
    ownStep (Some s) inputValues = Return s' /\
    ((Semver.compareMain sv targetVirtualClusterVersion >= 0)%Z -> s' = s) /\
    sameApartFromApiserverVersion s s'.
Proof.
  intros Hvalid Hread Hparse.
  assert (Hstep : ownStep (Some s) inputValues = raiseFloor s)
    by (unfold V1_80.ownStep; now rewrite Hvalid).
  pose proof (raiseFloor_cases s) as Hc.
  inversion Hc as [e He Hno Heq | v' sv' Hread' Hparse' Hcmp' Heq
                  | v' sv' a Hread' Hparse' Hcmp' Ha Heq].
  - exfalso. exact (Hno v sv Hread Hparse).
  - exists s. symmetry in Heq. split; [now rewrite Hstep|].
    split; [reflexivity | now apply raiseFloor_frame].
  - symmetry in Heq. eexists. split; [rewrite Hstep; exact Heq|].
    split; [|now apply raiseFloor_frame].
    assert (v' = v) by congruence. subst v'.
    assert (sv' = sv) by congruence. subst sv'. lia.
Qed.

(** C5 (amended).  For a prior state that fails the structural check, the
    v1.80 installer, once entered, rejects with the error [validateState]
    builds for this state: nothing else is logged, the floor check does
    not run and the parent installer is not entered; the rejection is the
    outcome of [install] itself. *)
Theorem install_rejects_malformed flow (s : VersionedState) inputValues log :
  isStateValues s = false ->
  ownStep (Some s) inputValues = Throw (validateState s) /\
  install flow (Some s) inputValues log =
  (log ++ [Invoke Installation_1_80], Throw (validateState s)).
Proof.
  intros Hbad.
  assert (H : ownStep (Some s) inputValues = Throw (validateState s))
    by (unfold V1_80.ownStep; now rewrite Hbad).
  split; [exact H | now apply install_throws].
Qed.

End V1_80_Installer.

(** The scenario of the floor: prior apiserver version 1.20.0, target
    1.80.3. *)
Lemma install_raises_floor_witness :
  exists s',
    V1_80.ownStep (fun v => mkVersioned v []) V1_80.isStateValues_spec
      V1_80.validateState_spec (Some state_1_20) values_1_80_3 = Return s' /\
    V1_80.apiserver_version s' = Return (Str "v1.23.16") /\
    property (properties s') "etcd" = property (properties state_1_20) "etcd".
Proof.
  destruct (install_raises_floor unit (fun v => mkVersioned v [])
              V1_80.isStateValues_spec V1_80.validateState_spec
              (fun _ _ _ => ret tt) tt state_1_20 values_1_80_3 "1.20.0"
              {| Semver.raw := "1.20.0"; Semver.major := 1; Semver.minor := 20;
                 Semver.patch := 0; Semver.prerelease := []; Semver.build := [] |})
    as (s' & floor & Hstep & Hversion & _ & _ & Hframe & _).
  - reflexivity.
  - reflexivity.
  - vm_compute. reflexivity.
  - reflexivity.
  - exists s'. split; [exact Hstep|]. split; [exact Hversion|].
    destruct Hframe as (_ & _ & Hother & _). apply Hother. discriminate.
Defined.

(** C3, as stated, fails: in the scenario the resulting apiserver version
    is not the string 1.23.16. *)
Lemma install_floor_string_counterexample :
  ~ (exists s',
       V1_80.ownStep (fun v => mkVersioned v []) V1_80.isStateValues_spec
         V1_80.validateState_spec (Some state_1_20) values_1_80_3 = Return s' /\
       V1_80.apiserver_version s' = Return (Str "1.23.16")).
Proof.
  intros (s' & Hstep & Hversion).
  vm_compute in Hstep. injection Hstep as <-.
  vm_compute in Hversion. discriminate.
Qed.

Lemma ownStep_frame_witness :
  V1_80.ownStep (fun v => mkVersioned v []) V1_80.isStateValues_spec
    V1_80.validateState_spec (Some state_1_25) values_1_80_3 = Return state_1_25.
Proof.
  destruct (ownStep_frame (fun v => mkVersioned v [])
              V1_80.isStateValues_spec V1_80.validateState_spec
              state_1_25 values_1_80_3 "1.25.0"
              {| Semver.raw := "1.25.0"; Semver.major := 1; Semver.minor := 25;
                 Semver.patch := 0; Semver.prerelease := []; Semver.build := [] |})
    as (s' & Hstep & Hsame & _).
  - reflexivity.
  - reflexivity.
  - vm_compute. reflexivity.
  - rewrite Hstep. f_equal. apply Hsame. vm_compute. discriminate.
Defined.

Lemma install_rejects_malformed_witness :
  V1_80.install unit (fun v => mkVersioned v []) V1_80.isStateValues_spec
    V1_80.validateState_spec (fun _ _ _ => ret tt) tt (Some state_untagged)
    values_1_80_3 [] =
  ([V1_80.Invoke Installation_1_80],
   Throw (mkException "MalformedStateError" "missing: version")).
Proof.
  apply (install_rejects_malformed unit (fun v => mkVersioned v [])
           V1_80.isStateValues_spec V1_80.validateState_spec
           (fun _ _ _ => ret tt) tt state_untagged values_1_80_3 []).
  reflexivity.
Defined.

(** C5, as stated, fails: for the state with an empty version tag the error
    is raised after an installer, the v1.80 one, has been entered. *)
Lemma install_rejects_inside_installer_counterexample :
  ~ raisedBeforeAnyInstaller
      (V1_80.install unit (fun v => mkVersioned v []) V1_80.isStateValues_spec
         V1_80.validateState_spec (fun _ _ _ => ret tt) tt (Some state_untagged)
         values_1_80_3 []).
Proof.
  intros [_ H]. apply (H Installation_1_80). vm_compute. now left.
Qed.

(* ================================================================== *)
(** * Part XI. The control-plane deployment task: order of the phases  *)
(* ================================================================== *)

Module ListFacts.

Lemma splits_complete {A : Type} (l l1 : list A) (e : A) (l2 : list A) :
  l = l1 ++ e :: l2 -> In (l1, e, l2) (splits l).
Proof.
  revert l. induction l1 as [|x l1 IH]; intros l ->; cbn.
  - now left.
  - right. apply in_map_iff. exists (l1, e, l2). split; [reflexivity|].
    now apply IH.
Qed.

End ListFacts.

Module GardenerFacts.
Import GardenerTask.

Section Monitor.
Context {GeneralValues KubeConfig Release Rest : Type}.
Local Abbreviation event := (@GardenerTask.event KubeConfig Release Rest).
Implicit Types (tr pre post : list event) (q : list string).

Lemma ordered_request a q pre n post :
  ordered a q (pre ++ RequestKubeConfig n :: post) = true -> a + applies pre = 1.
Proof.
  revert a q. induction pre as [|e pre IH]; intros a q; cbn [app ordered].
  - intros H. apply andb_prop in H. destruct H as [H _].
    apply Nat.eqb_eq in H. subst. reflexivity.
  - destruct e; unfold applies; cbn [filter isApply List.length];
      fold (applies pre); intros H;
      try (apply IH in H; lia);
      try (apply andb_prop in H; destruct H as [_ H]; apply IH in H; lia).
    destruct a as [|[|a]]; [| |discriminate].
    + destruct q; [|discriminate]. apply IH in H. lia.
    + destruct (list_eq_dec string_dec q serviceAccounts); [|discriminate].
      apply IH in H. lia.
Qed.

Lemma ordered_fetch a q pre ns n post :
  ordered a q (pre ++ ClusterKubeConfig ns n :: post) = true -> a + applies pre = 1.
Proof.
  revert a q. induction pre as [|e pre IH]; intros a q; cbn [app ordered].
  - intros H. apply andb_prop in H. destruct H as [H _].
    apply Nat.eqb_eq in H. subst. reflexivity.
  - destruct e; unfold applies; cbn [filter isApply List.length];
      fold (applies pre); intros H;
      try (apply IH in H; lia);
      try (apply andb_prop in H; destruct H as [_ H]; apply IH in H; lia).
    destruct a as [|[|a]]; [| |discriminate].
    + destruct q; [|discriminate]. apply IH in H. lia.
    + destruct (list_eq_dec string_dec q serviceAccounts); [|discriminate].
      apply IH in H. lia.
Qed.

Lemma ordered_second_apply a q pre r kc post :
  ordered a q (pre ++ CreateOrUpdate r kc :: post) = true ->
  a + applies pre = 1 -> (q ++ requests pre)%list = serviceAccounts.
Proof.
  revert a q. induction pre as [|e pre IH]; intros a q; cbn [app ordered].
  - unfold applies. cbn. rewrite Nat.add_0_r. intros H ->.
    destruct (list_eq_dec string_dec q serviceAccounts); [|discriminate].
    now rewrite app_nil_r.
  - destruct e; unfold applies, requests; cbn [filter isApply List.length flat_map app];
      fold (applies pre); fold (requests pre); intros H Ha;
      try (now apply (IH a q)).
    + destruct a as [|[|a]]; [|lia|lia].
      destruct q; [|discriminate]. apply (IH 1 []); [exact H | lia].
    + apply andb_prop in H. destruct H as [_ H].
      specialize (IH a (q ++ [name])%list H Ha).
      rewrite <- app_assoc in IH. exact IH.
    + apply andb_prop in H. destruct H as [_ H]. now apply (IH a q).
Qed.

Lemma ordered_applies a q tr :
  ordered a q tr = true -> a <= 2 -> a + applies tr <= 2.
Proof.
  revert a q. induction tr as [|e tr IH]; intros a q; cbn [ordered].
  - unfold applies. cbn. lia.
  - destruct e; unfold applies; cbn [filter isApply List.length];
      fold (applies tr); intros H Ha;
      try (now apply (IH a q));
      try (apply andb_prop in H; destruct H as [_ H]; exact (IH _ _ H Ha)).
    destruct a as [|[|a]]; [| |discriminate].
    + destruct q; [|discriminate]. specialize (IH 1 [] H). lia.
    + destruct (list_eq_dec string_dec q serviceAccounts); [|discriminate].
      specialize (IH 2 q H). lia.
Qed.

End Monitor.

End GardenerFacts.

Section Task_Order.
Import GardenerTask ListFacts GardenerFacts.

Context {GeneralValues KubeClient KubeConfig Helm Release Rest : Type}.
Local Abbreviation event := (@GardenerTask.event KubeConfig Release Rest).
Local Abbreviation Gardener := (@GardenerTask.Gardener GeneralValues KubeClient Helm).

Variable GardenerNamespace : string.
Variable getValues : Gardener -> completion (@Values Rest).
Variable waitUntilVirtualClusterIsReady :
  list event -> GeneralValues -> completion KubeClient.
Variable getKubeConfig : KubeClient -> KubeConfig.
Variable getRelease : list event -> @Chart Rest -> GeneralValues -> completion Release.
Variable createOrUpdate :
  list event -> Helm -> Release -> option KubeConfig -> completion unit.
Variable k8s_getKubeConfigForServiceAccount :
  list event -> KubeClient -> string -> string -> completion KubeConfig.
Variable exportConfig : KubeConfig -> string.

Local Abbreviation do :=
  (GardenerTask.do GardenerNamespace getValues waitUntilVirtualClusterIsReady
     getKubeConfig getRelease createOrUpdate k8s_getKubeConfigForServiceAccount
     exportConfig).

(** C8.  In every run of [do], whatever the collaborators answer: every
    credential request (and every credential fetched from the virtual
    cluster) comes after exactly one call of [helm.createOrUpdate]; a second
    call of [helm.createOrUpdate] comes after the requests for the four
    service accounts, in the order of the source; there are at most two
    such calls, the first for the release of the application chart and the
    second for the release of the runtime chart; and a call of
    [helm.createOrUpdate] that fails is the last event of the run, whose
    outcome is this very error: after a failed first application the
    second chart is not applied. *)
Theorem do_two_phase_order (this : Gardener) (log0 : list event) :
  exists tr,
    fst (do this log0) = (log0 ++ tr)%list /\
    (forall pre n post,
       tr = (pre ++ RequestKubeConfig n :: post)%list -> applies pre = 1) /\
    (forall pre ns n post,
       tr = (pre ++ ClusterKubeConfig ns n :: post)%list -> applies pre = 1) /\
    (forall pre r kc post,
       tr = (pre ++ CreateOrUpdate r kc :: post)%list ->
       applies pre = 1 -> requests pre = serviceAccounts) /\
    applies tr <= 2 /\
    (forall pre r kc post,
       tr = (pre ++ CreateOrUpdate r kc :: post)%list ->
       exists before c,
         pre = (before ++ [GetRelease c])%list /\
         getRelease (log0 ++ before)%list c (values this) = Return r /\
         releaseName c =
           if (applies before =? 0)%nat then "gardener-application"
           else "gardener-runtime") /\
    (forall pre r kc post e,
       tr = (pre ++ CreateOrUpdate r kc :: post)%list ->
       createOrUpdate (log0 ++ pre)%list (helm this) r kc = Throw e ->
       post = [] /\ snd (do this log0) = Throw e).
Proof.
  unfold GardenerTask.do, getKubeConfigForServiceAccount, bind, call, tell, lift, ret.
  destruct (dryRun this) eqn:Hdry; cbn [negb];
    destruct (virtualClient this) as [client0|] eqn:Hclient;
    repeat (cbn [values helm virtualClient dryRun hostClient option_map];
            match goal with
            | |- context [match ?x with Return _ => _ | Throw _ => _ end] =>
                lazymatch x with
                | context [match _ with Return _ => _ | Throw _ => _ end] => fail
                | _ => destruct x eqn:?
                end
            end);
    cbn [values helm virtualClient dryRun hostClient option_map fst snd] in *;
    repeat rewrite <- app_assoc in *; cbn [app] in *;
    (eexists; split; [reflexivity|]);
    match goal with
    | |- (forall pre n post, ?tr = _ -> _) /\ _ =>
        assert (Hord : ordered 0 [] tr = true) by reflexivity
    end;
    (split; [intros pre0 name0 post0 E; rewrite E in Hord;
             exact (ordered_request _ _ _ _ _ Hord)|]);
    (split; [intros pre0 nsp name0 post0 E; rewrite E in Hord;
             exact (ordered_fetch _ _ _ _ _ _ Hord)|]);
    (split; [intros pre0 rel kcfg post0 E Ha; rewrite E in Hord;
             exact (ordered_second_apply _ _ _ _ _ _ Hord Ha)|]);
    (split; [exact (ordered_applies _ _ _ Hord (Nat.le_0_l 2))|]);
    clear Hord;
    (split;
     [ intros pre0 rel kcfg post0 E; apply splits_complete in E; cbn [splits map] in E;
       repeat (destruct E as [E|E];
               [ inversion E; subst; clear E;
                 match goal with
                 | |- exists before c, ?p = _ /\ _ => exists (removelast p)
                 end;
                 cbn [removelast]; eexists;
                 (split; [reflexivity | split; [eassumption | reflexivity]])
               | ]);
       destruct E
     | intros pre0 rel kcfg post0 err E Hfail; apply splits_complete in E;
       cbn [splits map] in E;
       repeat (destruct E as [E|E];
               [ inversion E; subst; clear E;
                 match goal with
                 | Hs : createOrUpdate ?l ?h ?x ?k = _ |- _ =>
                     change (createOrUpdate l h x k = Throw err) in Hfail;
                     rewrite Hs in Hfail;
                     first [ discriminate Hfail
                           | injection Hfail as <-; split; reflexivity ]
                 end
               | ]);
       destruct E ]).
Qed.

(** C9.  A task constructed with the dry-run flag set answers every
    request for the kubeconfig of a service account with the placeholder
    made of [dumy-] and the name of the account, without a call to the
    cluster; a run of [do] then neither waits for the virtual cluster nor
    fetches a credential from it, applies both charts without a kubeconfig
    of the virtual cluster, builds the runtime chart with the four
    placeholders, and leaves the task as constructed. *)
Theorem dryRun_placeholders (hostClient : KubeClient) (helm : Helm)
    (values : GeneralValues) (log0 : list event) :
  let this := new_Gardener hostClient helm values true in
  (forall name log,
     getKubeConfigForServiceAccount GardenerNamespace
       k8s_getKubeConfigForServiceAccount exportConfig this name log =
     ((log ++ [RequestKubeConfig name])%list, Return ("dumy-" ++ name)%string)) /\
  exists tr,
    fst (do this log0) = (log0 ++ tr)%list /\
    (forall e, In e tr -> contactsVirtualCluster e = false) /\
    (forall r kc, In (CreateOrUpdate r kc) tr -> kc = None) /\
    (forall c, In (GetRelease c) tr -> releaseName c = "gardener-runtime" ->
               apiserver_kubeconfig (chartValues c) = "dumy-gardener-apiserver" /\
               controller_kubeconfig (chartValues c) = "dumy-gardener-controller-manager" /\
               scheduler_kubeconfig (chartValues c) = "dumy-gardener-scheduler" /\
               admission_kubeconfig (chartValues c) = "dumy-gardener-admission-controller") /\
    (forall this', snd (do this log0) = Return this' -> this' = this).
Proof.
  intros this. split; [reflexivity|].
  unfold GardenerTask.do, getKubeConfigForServiceAccount, bind, call, tell, lift, ret.
  subst this. unfold new_Gardener.
  repeat (cbn [GardenerTask.values GardenerTask.helm virtualClient dryRun
               GardenerTask.hostClient option_map negb];
          match goal with
          | |- context [match ?x with Return _ => _ | Throw _ => _ end] =>
              lazymatch x with
              | context [match _ with Return _ => _ | Throw _ => _ end] => fail
              | _ => destruct x eqn:?
              end
          end);
    cbn [fst snd];
    repeat rewrite <- app_assoc; cbn [app];
    (eexists; split; [reflexivity|]);
    (split;
     [ intros ev Hin; cbn [In] in Hin;
       repeat (destruct Hin as [<-|Hin]; [reflexivity|]); destruct Hin |]);
    (split;
     [ intros rel kcfg Hin; cbn [In] in Hin;
       repeat (destruct Hin as [Hin|Hin];
               [first [discriminate Hin | now injection Hin as _ <-]|]);
       destruct Hin |]);
    (split;
     [ intros ch Hin Hname; cbn [In] in Hin;
       repeat (destruct Hin as [Hin|Hin];
               [first [discriminate Hin
                      | injection Hin as <-;
                        first [discriminate Hname | repeat split]]|]);
       destruct Hin |]);
    intros this' Hret; first [discriminate Hret | now injection Hret as <-].
Qed.

End Task_Order.

(* ================================================================== *)
(** * Part XII. More on the resolver                                   *)
(* ================================================================== *)

Module Resolution.
Import Semver.

Lemma declaredBands_range (m : N) :
  In m declaredBands <-> (46 <= m <= 95)%N.
Proof.
  unfold declaredBands. rewrite in_map_iff. split.
  - intros (n & <- & Hn). apply in_seq in Hn. lia.
  - intros Hm. exists (N.to_nat m). split; [apply N2Nat.id|].
    apply in_seq. lia.
Qed.

Lemma release_minor_unique (V : string) (m m' : N) :
  isReleaseOfBand V m -> isReleaseOfBand V m' -> m = m'.
Proof.
  intros (sv & P & _ & M & _) (sv' & P' & _ & M' & _). congruence.
Qed.

(** The two ways a resolution ends. *)
Lemma getInstallation_cases (V : string) :
  (exists e m, In e versions /\ bandOfPattern (fst e) = Some m /\
               In m declaredBands /\ isReleaseOfBand V m /\
               getInstallation V = Return (Some (snd e))) \/
  ((forall m, In m declaredBands -> ~ isReleaseOfBand V m) /\
   getInstallation V = Throw (VersionNotFound V)).
Proof.
  unfold getInstallation.
  destruct (find (fun v => satisfies V v) (Object_keys versions)) as [k|] eqn:Hfind.
  - left. destruct (find_some _ _ Hfind) as [Hk Hsat].
    destruct (Registry.versions_band_of_key k Hk) as (m & Hm & Hin).
    unfold Object_keys in Hk. apply in_map_iff in Hk. destruct Hk as (e & <- & He).
    exists e, m. repeat split; auto.
    + now apply (Registry.satisfies_band V (fst e) m Hm).
    + now rewrite (Registry.versions_property e He).
  - right. split; [|reflexivity]. intros m Hm Hrel.
    destruct (Registry.declared_band m Hm) as (Hkey & Hband & _).
    apply (Registry.satisfies_band V _ m Hband) in Hrel.
    rewrite (find_none _ _ Hfind _ Hkey) in Hrel. discriminate.
Qed.

Lemma allInstallers_complete (g : InstallationConstructor) : In g allInstallers.
Proof. destruct g; cbn; tauto. Qed.

(** Every entry of the registry binds its band to the newest installer
    class that is not newer than the band. *)
Lemma versions_nearest (e : string * InstallationConstructor) (m : N) :
  In e versions -> bandOfPattern (fst e) = Some m ->
  nearestOlderInstaller (snd e) m.
Proof.
  assert (H : forallb (fun e =>
                match bandOfPattern (fst e) with
                | Some m =>
                    (installerMinor (snd e) <=? m)%N &&
                    forallb (fun g => implb (installerMinor g <=? m)%N
                                        (installerMinor g <=? installerMinor (snd e))%N)
                      allInstallers
                | None => false
                end) versions = true) by (vm_compute; reflexivity).
  rewrite forallb_forall in H. intros He Hm. specialize (H e He). rewrite Hm in H.
  apply andb_prop in H. destruct H as [H1 H2]. rewrite forallb_forall in H2.
  split; [now apply N.leb_le|].
  intros g Hg. specialize (H2 g (allInstallers_complete g)).
  apply N.leb_le in Hg. rewrite Hg in H2. now apply N.leb_le.
Qed.

Lemma getInstallation_nearest (V : string) (m : N) (f : InstallationConstructor) :
  isReleaseOfBand V m -> getInstallation V = Return (Some f) ->
  nearestOlderInstaller f m.
Proof.
  intros Hrel Hget.
  destruct (getInstallation_cases V) as [(e & m' & He & Hm' & _ & Hrel' & Hret)|[_ Hthrow]];
    [|congruence].
  assert (m' = m) by (eapply release_minor_unique; eassumption). subst m'.
  assert (snd e = f) by congruence. subst f.
  now apply versions_nearest.
Qed.

Lemma find_ext_in {A : Type} (p q : A -> bool) (l : list A) :
  (forall x, In x l -> p x = q x) -> find p l = find q l.
Proof.
  induction l as [|x l IH]; cbn; [reflexivity|]. intros H.
  rewrite (H x (or_introl eq_refl)). destruct (q x); [reflexivity|].
  apply IH. intros y Hy. apply H. now right.
Qed.

End Resolution.

(** X1.  [getInstallation V] returns a factory exactly when [V] is a
    release (no prerelease tag) of major version 1 with a minor version
    from 46 to 95, every minor version in between included; in every other
    case it throws [VersionNotFound V]; it never returns [undefined]. *)
Theorem getInstallation_domain (V : string) :
  ((exists f, getInstallation V = Return (Some f)) <->
   (exists m, isReleaseOfBand V m /\ (46 <= m <= 95)%N)) /\
  (getInstallation V = Throw (VersionNotFound V) <->
   ~ (exists m, isReleaseOfBand V m /\ (46 <= m <= 95)%N)) /\
  getInstallation V <> Return None.
Proof.
  destruct (Resolution.getInstallation_cases V)
    as [(e & m & He & Hm & Hin & Hrel & Hret)|[Hnone Hthrow]].
  - apply Resolution.declaredBands_range in Hin.
    split; [|split].
    + split; [intros _; now exists m | intros _; now exists (snd e)].
    + split; [congruence|]. intros Hno. exfalso. apply Hno. now exists m.
    + congruence.
  - split; [|split].
    + split; [intros (f & Hf); congruence|].
      intros (m & Hrel & Hm). apply Resolution.declaredBands_range in Hm.
      exfalso. exact (Hnone m Hm Hrel).
    + split; [|intros _; exact Hthrow].
      intros _ (m & Hrel & Hm). apply Resolution.declaredBands_range in Hm.
      exact (Hnone m Hm Hrel).
    + congruence.
Qed.

(** X2.  The factory resolved for a release 1.m.p is the newest installer
    class that is not newer than 1.m: its release line is at most [m], and
    no installer class with a release line at most [m] is newer. *)
Theorem getInstallation_nearest_older (V : string) (m : N) (f : InstallationConstructor) :
  isReleaseOfBand V m ->
  getInstallation V = Return (Some f) ->
  (installerMinor f <= m)%N /\
  forall g, (installerMinor g <= m)%N -> (installerMinor g <= installerMinor f)%N.
Proof.
  intros Hrel Hget. exact (Resolution.getInstallation_nearest V m f Hrel Hget).
Qed.

Lemma getInstallation_nearest_older_witness :
  (installerMinor Installation_1_74 <= 78)%N /\
  forall g, (installerMinor g <= 78)%N ->
            (installerMinor g <= installerMinor Installation_1_74)%N.
Proof.
  apply (getInstallation_nearest_older "1.78.4" 78 Installation_1_74).
  - eexists. split; [vm_compute; reflexivity|]. cbn. auto.
  - vm_compute. reflexivity.
Defined.

(** X3.  Resolution is monotone: of two releases that both resolve, the one
    with the higher minor version never gets the older installer class. *)
Theorem getInstallation_monotone (V1 V2 : string) (m1 m2 : N)
    (f1 f2 : InstallationConstructor) :
  isReleaseOfBand V1 m1 -> isReleaseOfBand V2 m2 -> (m1 <= m2)%N ->
  getInstallation V1 = Return (Some f1) ->
  getInstallation V2 = Return (Some f2) ->
  (installerMinor f1 <= installerMinor f2)%N.
Proof.
  intros R1 R2 Hle G1 G2.
  destruct (Resolution.getInstallation_nearest V1 m1 f1 R1 G1) as [L1 _].
  destruct (Resolution.getInstallation_nearest V2 m2 f2 R2 G2) as [_ M2].
  apply M2. lia.
Qed.

Lemma getInstallation_monotone_witness :
  (installerMinor Installation_1_62 <= installerMinor Installation_1_81)%N.
Proof.
  apply (getInstallation_monotone "1.70.1" "v1.85.0" 70 85).
  - eexists. split; [vm_compute; reflexivity|]. cbn. auto.
  - eexists. split; [vm_compute; reflexivity|]. cbn. auto.
  - lia.
  - vm_compute. reflexivity.
  - vm_compute. reflexivity.
Defined.

(** X4.  Only the major version, the minor version and the presence of a
    prerelease tag of the version string matter: two version strings that
    parse and agree on these get the same factory, whatever their patch
    number, build metadata, leading v or surrounding white space. *)
Theorem getInstallation_patch_independent (V W : string) (sv sw : Semver.SemVer) :
  Semver.new_SemVer V = Some sv ->
  Semver.new_SemVer W = Some sw ->
  Semver.major sv = Semver.major sw ->
  Semver.minor sv = Semver.minor sw ->
  (Semver.prerelease sv = [] <-> Semver.prerelease sw = []) ->
  forall f, getInstallation V = Return f <-> getInstallation W = Return f.
Proof.
  intros PV PW Hmaj Hmin Hpre.
  assert (Hrel : forall m, isReleaseOfBand V m <-> isReleaseOfBand W m).
  { intros m. unfold isReleaseOfBand. split.
    - intros (x & Hx & H1 & H2 & H3). assert (x = sv) by congruence. subst x.
      exists sw. repeat split; auto; try congruence. now apply Hpre.
    - intros (x & Hx & H1 & H2 & H3). assert (x = sw) by congruence. subst x.
      exists sv. repeat split; auto; try congruence. now apply Hpre. }
  assert (Hfind : find (fun v => Semver.satisfies V v) (Object_keys versions) =
                  find (fun v => Semver.satisfies W v) (Object_keys versions)).
  { apply Resolution.find_ext_in. intros r Hr.
    destruct (Registry.versions_band_of_key r Hr) as (m & Hm & _).
    pose proof (Registry.satisfies_band V r m Hm) as HV.
    pose proof (Registry.satisfies_band W r m Hm) as HW.
    destruct (Semver.satisfies V r), (Semver.satisfies W r); try reflexivity.
    - assert (false = true) by (apply HW, Hrel, HV; reflexivity). discriminate.
    - assert (false = true) by (apply HV, Hrel, HW; reflexivity). discriminate. }
  intros f. unfold getInstallation. rewrite Hfind.
  destruct (find (fun v => Semver.satisfies W v) (Object_keys versions));
    [reflexivity | split; discriminate].
Qed.

Lemma getInstallation_patch_independent_witness :
  getInstallation "1.80.3" = Return (Some Installation_1_80) <->
  getInstallation " v1.80.99+build.5" = Return (Some Installation_1_80).
Proof.
  eapply (getInstallation_patch_independent "1.80.3" " v1.80.99+build.5").
  - vm_compute. reflexivity.
  - vm_compute. reflexivity.
  - reflexivity.
  - reflexivity.
  - cbn. tauto.
Defined.

(** X5.  Every installer class is bound to the release line it is imported
    from: a version 1.m.p, with [m] the release line of the class and any
    patch number [p] of up to 15 digits, resolves to that class. *)
Theorem getInstallation_own_line (c : InstallationConstructor) (p : string) :
  Semver.isNumericIdentifier p = true -> (String.length p <= 15)%nat ->
  getInstallation ("1." ++ Semver.string_of_N (installerMinor c) ++ "." ++ p) =
  Return (Some c).
Proof.
  intros Hp Lp.
  assert (Hm : In (installerMinor c) declaredBands)
    by (apply Resolution.declaredBands_range; destruct c; cbn; lia).
  destruct (Registry.declared_band _ Hm) as (Hkey & Hband & _).
  rewrite (Registry.getInstallation_band _ _ _ Hkey Hband
             (Registry.release_of_band _ p Hm Hp Lp)).
  f_equal. destruct c; vm_compute; reflexivity.
Qed.

Lemma getInstallation_own_line_witness :
  getInstallation ("1." ++ Semver.string_of_N (installerMinor Installation_1_62) ++ "." ++ "12") =
  Return (Some Installation_1_62).
Proof.
  apply (getInstallation_own_line Installation_1_62 "12").
  - reflexivity.
  - cbn. lia.
Defined.

(** X6.  [convertStateValues] accepts a state exactly when the version tag
    of the state resolves to an installer, it fails with the very exception
    [getInstallation] throws for that tag, and a state it has returned is
    returned again for any target version. *)
Theorem convertStateValues_getInstallation (state : VersionedState) (targetVersion : string) :
  (convertStateValues state targetVersion = Return state <->
   exists f, getInstallation (version state) = Return (Some f)) /\
  (forall e, convertStateValues state targetVersion = Throw e <->
             getInstallation (version state) = Throw e) /\
  (forall s' otherTarget,
     convertStateValues state targetVersion = Return s' ->
     convertStateValues s' otherTarget = Return s').
Proof.
  pose proof (Resolution.getInstallation_cases (version state)) as Hc.
  unfold convertStateValues, getInstallation in *.
  destruct (find (fun v => Semver.satisfies (version state) v) (Object_keys versions))
    as [k|] eqn:Hfind.
  - destruct Hc as [(e & m & _ & _ & _ & _ & Hret)|[_ Hthrow]]; [|discriminate].
    split; [|split].
    + split; [intros _; now exists (snd e) | reflexivity].
    + intros x. split; discriminate.
    + intros s' t' [= <-]. now rewrite Hfind.
  - split; [|split].
    + split; [discriminate | intros (f & Hf); discriminate].
    + intros x. split; intros [= <-]; reflexivity.
    + intros s' t' [=].
Qed.

(* ================================================================== *)
(** * Part XIII. More on the v1.80 installer                           *)
(* ================================================================== *)

Module FloorFacts.
Import Semver V1_80 V1_80Facts.

Lemma compareMain_values (a b : SemVer) :
  compareMain a b = (-1)%Z \/ compareMain a b = 0%Z \/ compareMain a b = 1%Z.
Proof.
  unfold compareMain, orElse.
  destruct (SemverFacts.compareNumbers_cases (major a) (major b)) as [[_ ->]|[[_ ->]|[_ ->]]];
  destruct (SemverFacts.compareNumbers_cases (minor a) (minor b)) as [[_ ->]|[[_ ->]|[_ ->]]];
  destruct (SemverFacts.compareNumbers_cases (patch a) (patch b)) as [[_ ->]|[[_ ->]|[_ ->]]];
  cbn; auto.
Qed.

(** [compareMain] is the lexicographic order on (major, minor, patch). *)
Lemma compareMain_lt (a b : SemVer) :
  compareMain a b = (-1)%Z <->
  (major a < major b \/
   (major a = major b /\
    (minor a < minor b \/ (minor a = minor b /\ patch a < patch b))))%N.
Proof.
  unfold compareMain, orElse.
  destruct (SemverFacts.compareNumbers_cases (major a) (major b)) as [[H1 ->]|[[H1 ->]|[H1 ->]]];
  destruct (SemverFacts.compareNumbers_cases (minor a) (minor b)) as [[H2 ->]|[[H2 ->]|[H2 ->]]];
  destruct (SemverFacts.compareNumbers_cases (patch a) (patch b)) as [[H3 ->]|[[H3 ->]|[H3 ->]]];
  cbn; split; intros H; try discriminate; try reflexivity; try lia.
Qed.

Lemma compareMain_refl (a : SemVer) : compareMain a a = 0%Z.
Proof.
  destruct (compareMain_values a a) as [H|[H|H]]; [|exact H|].
  - apply compareMain_lt in H. lia.
  - exfalso. revert H. unfold compareMain, orElse.
    destruct (SemverFacts.compareNumbers_cases (major a) (major a)) as [[H1 ->]|[[H1 ->]|[H1 ->]]];
    destruct (SemverFacts.compareNumbers_cases (minor a) (minor a)) as [[H2 ->]|[[H2 ->]|[H2 ->]]];
    destruct (SemverFacts.compareNumbers_cases (patch a) (patch a)) as [[H3 ->]|[[H3 ->]|[H3 ->]]];
    cbn; try discriminate; lia.
Qed.

Lemma compareMain_gt_of_lt (a b : SemVer) :
  compareMain a b = (-1)%Z -> compareMain b a = 1%Z.
Proof.
  intros H. apply compareMain_lt in H.
  unfold compareMain, orElse.
  destruct (SemverFacts.compareNumbers_cases (major b) (major a)) as [[H1 ->]|[[H1 ->]|[H1 ->]]];
  destruct (SemverFacts.compareNumbers_cases (minor b) (minor a)) as [[H2 ->]|[[H2 ->]|[H2 ->]]];
  destruct (SemverFacts.compareNumbers_cases (patch b) (patch a)) as [[H3 ->]|[[H3 ->]|[H3 ->]]];
  cbn; try reflexivity; lia.
Qed.

Lemma compareMain_floor (sv : SemVer) :
  compareMain sv targetVirtualClusterVersion = (-1)%Z <-> olderThanFloor sv.
Proof. apply compareMain_lt. Qed.

(** The state [raiseFloor] returns holds a version at the floor or the
    version it held. *)
Lemma raiseFloor_version (s s' : VersionedState) :
  raiseFloor s = Return s' ->
  exists v sv,
    apiserver_version s = Return (Str v) /\ Semver.new_SemVer v = Some sv /\
    ((olderThanFloor sv /\ apiserver_version s' = Return (Str "v1.23.16")) \/
     (~ olderThanFloor sv /\ s' = s)).
Proof.
  intros H. pose proof (raiseFloor_cases s) as Hc. rewrite H in Hc.
  inversion Hc as [| v sv Hread Hparse Hcmp Heq | v sv a Hread Hparse Hcmp Ha Heq]; subst.
  - exists v, sv. repeat split; auto. right. split; [|reflexivity].
    now rewrite <- compareMain_floor.
  - exists v, sv. repeat split; auto. left. split; [now apply compareMain_floor|].
    unfold apiserver_version. cbn [properties].
    now rewrite !ObjectFacts.property_setProperty_same.
Qed.

End FloorFacts.

(** X7.  The floor check of the v1.80 installer looks at major, minor and
    patch only: a state whose apiserver version parses is raised to
    v1.23.16 when this triple is below (1, 23, 16) and is returned as it is
    otherwise, whatever the prerelease tag or build metadata of the
    version. *)
Theorem raiseFloor_main_components (s : VersionedState) (v : string) (sv : Semver.SemVer) :
  V1_80.apiserver_version s = Return (Str v) ->
  Semver.new_SemVer v = Some sv ->
  (olderThanFloor sv ->
   exists s', V1_80.raiseFloor s = Return s' /\
              V1_80.apiserver_version s' = Return (Str "v1.23.16")) /\
  (~ olderThanFloor sv -> V1_80.raiseFloor s = Return s).
Proof.
  intros Hread Hparse.
  pose proof (V1_80Facts.raiseFloor_cases s) as Hc.
  inversion Hc as [e He Hno Heq | v' sv' Hread' Hparse' Hcmp' Heq
                  | v' sv' a Hread' Hparse' Hcmp' Ha Heq].
  - exfalso. exact (Hno v sv Hread Hparse).
  - assert (v' = v) by congruence. subst v'.
    assert (sv' = sv) by congruence. subst sv'.
    split; [|reflexivity]. intros Hold.
    apply FloorFacts.compareMain_floor in Hold. contradiction.
  - assert (v' = v) by congruence. subst v'.
    assert (sv' = sv) by congruence. subst sv'.
    split.
    + intros _. eexists. split; [reflexivity|].
      unfold V1_80.apiserver_version. cbn [properties].
      now rewrite !ObjectFacts.property_setProperty_same.
    + intros Hnot. exfalso. apply Hnot. now apply FloorFacts.compareMain_floor.
Qed.

Lemma raiseFloor_main_components_witness :
  V1_80.raiseFloor
    (mkVersioned "1.79.0" [("apiserver", Object [("version", Str "1.23.16-rc.1+b7")])]) =
  Return (mkVersioned "1.79.0" [("apiserver", Object [("version", Str "1.23.16-rc.1+b7")])]).
Proof.
  eapply (raiseFloor_main_components _ "1.23.16-rc.1+b7").
  - reflexivity.
  - vm_compute. reflexivity.
  - unfold olderThanFloor. cbn. lia.
Defined.

(** X8.  The floor check is idempotent: run on a state it has returned, it
    returns this state again. *)
Theorem raiseFloor_idempotent (s s' : VersionedState) :
  V1_80.raiseFloor s = Return s' -> V1_80.raiseFloor s' = Return s'.
Proof.
  intros H.
  destruct (FloorFacts.raiseFloor_version s s' H) as (v & sv & Hread & Hparse & Hcase).
  destruct Hcase as [[Hold Hnew]|[Hkeep ->]]; [|exact H].
  pose proof (V1_80Facts.raiseFloor_cases s') as Hc.
  inversion Hc as [e He Hno Heq | v' sv' Hread' Hparse' Hcmp' Heq
                  | v' sv' a Hread' Hparse' Hcmp' Ha Heq].
  - exfalso. exact (Hno _ _ Hnew V1_80Facts.target_parses).
  - reflexivity.
  - exfalso. assert (v' = "v1.23.16") by congruence. subst v'.
    rewrite V1_80Facts.target_parses in Hparse'. injection Hparse' as <-.
    discriminate Hcmp'.
Qed.

Lemma raiseFloor_idempotent_witness :
  exists s', V1_80.raiseFloor state_1_20 = Return s' /\ V1_80.raiseFloor s' = Return s'.
Proof.
  eexists. split; [vm_compute; reflexivity|].
  apply (raiseFloor_idempotent state_1_20). vm_compute. reflexivity.
Defined.

(** X9.  The floor check never lowers the apiserver version: the state it
    returns holds a version that parses, is not older than 1.23.16 and is
    not older than the version the prior state held, on
    major.minor.patch. *)
Theorem raiseFloor_never_lowers (s s' : VersionedState) :
  V1_80.raiseFloor s = Return s' ->
  exists v sv v' sv',
    V1_80.apiserver_version s = Return (Str v) /\
    Semver.new_SemVer v = Some sv /\
    V1_80.apiserver_version s' = Return (Str v') /\
    Semver.new_SemVer v' = Some sv' /\
    (Semver.compareMain sv' V1_80.targetVirtualClusterVersion >= 0)%Z /\
    (Semver.compareMain sv' sv >= 0)%Z.
Proof.
  intros H.
  destruct (FloorFacts.raiseFloor_version s s' H) as (v & sv & Hread & Hparse & Hcase).
  destruct Hcase as [[Hold Hnew]|[Hkeep ->]].
  - exists v, sv, "v1.23.16", V1_80.targetVirtualClusterVersion.
    repeat split; auto using V1_80Facts.target_parses.
    + rewrite FloorFacts.compareMain_refl. lia.
    + apply FloorFacts.compareMain_floor in Hold.
      rewrite (FloorFacts.compareMain_gt_of_lt _ _ Hold). lia.
  - exists v, sv, v, sv. repeat split; auto.
    + rewrite <- FloorFacts.compareMain_floor in Hkeep.
      destruct (FloorFacts.compareMain_values sv V1_80.targetVirtualClusterVersion)
        as [E|[E|E]]; [contradiction | rewrite E; lia | rewrite E; lia].
    + rewrite FloorFacts.compareMain_refl. lia.
Qed.

Lemma raiseFloor_never_lowers_witness :
  exists v sv v' sv',
    V1_80.apiserver_version state_1_20 = Return (Str v) /\
    Semver.new_SemVer v = Some sv /\
    Semver.new_SemVer v' = Some sv' /\
    (Semver.compareMain sv' sv >= 0)%Z.
Proof.
  destruct (raiseFloor_never_lowers state_1_20
              (mkVersioned "1.74.2"
                 [("identity", Object [("name", Str "landscape")]);
                  ("apiserver", Object [("version", Str "v1.23.16"); ("replicas", Number 3)]);
                  ("etcd", Object [("backup", Bool true)])]))
    as (v & sv & v' & sv' & H1 & H2 & _ & H4 & _ & H6).
  - vm_compute. reflexivity.
  - exists v, sv, v', sv'. auto.
Defined.

Section V1_80_Errors.
Import V1_80 V1_80Facts.

Variable Flow : Type.
Variable emptyState : string -> VersionedState.
Variable isStateValues : VersionedState -> bool.
Variable validateState : VersionedState -> Exception.
Variable super_install : Flow -> VersionedState -> VersionedValues -> M event unit.

(** X10.  A prior state that passes the structural check but holds no
    apiserver version that parses (the property is missing, is no string,
    or is a string such as 1.22 that is no full version) makes [install]
    reject with a [TypeError]: the parent installer is not entered and
    nothing but the entry of the v1.80 installer is logged. *)
Theorem install_invalid_version (s : VersionedState) (inputValues : VersionedValues) :
  isStateValues s = true ->
  (forall v sv, apiserver_version s = Return (Str v) ->
                Semver.new_SemVer v <> Some sv) ->
  exists e,
    exn_name e = "TypeError" /\
    forall flow log,
      V1_80.install Flow emptyState isStateValues validateState super_install
        flow (Some s) inputValues log =
      ((log ++ [Invoke Installation_1_80])%list, Throw e).
Proof.
  intros Hvalid Hno.
  assert (Hstep : V1_80.ownStep emptyState isStateValues validateState (Some s) inputValues =
                  raiseFloor s)
    by (unfold V1_80.ownStep; now rewrite Hvalid).
  pose proof (raiseFloor_cases s) as Hc.
  inversion Hc as [e He _ Heq | v sv Hread Hparse _ Heq | v sv a Hread Hparse _ _ Heq].
  - exists e. split; [exact He|]. intros flow log.
    apply install_throws. now rewrite Hstep.
  - exfalso. exact (Hno v sv Hread Hparse).
  - exfalso. exact (Hno v sv Hread Hparse).
Qed.

End V1_80_Errors.

Lemma install_invalid_version_witness :
  exists e,
    exn_name e = "TypeError" /\
    V1_80.install unit (fun v => mkVersioned v []) V1_80.isStateValues_spec
      V1_80.validateState_spec (fun _ _ _ => ret tt) tt
      (Some (mkVersioned "1.79.0" [("apiserver", Object [("version", Str "1.22")])]))
      values_1_80_3 [] =
    ([V1_80.Invoke Installation_1_80], Throw e).
Proof.
  destruct (install_invalid_version unit (fun v => mkVersioned v [])
              V1_80.isStateValues_spec V1_80.validateState_spec (fun _ _ _ => ret tt)
              (mkVersioned "1.79.0" [("apiserver", Object [("version", Str "1.22")])])
              values_1_80_3) as (e & He & Hrun).
  - reflexivity.
  - intros v sv Hread. vm_compute in Hread. injection Hread as <-.
    vm_compute. discriminate.
  - exists e. split; [exact He|]. exact (Hrun tt []).
Defined.

(* ================================================================== *)
(** * Part XIV. More on the control-plane deployment task              *)
(* ================================================================== *)

Section Task_Runs.
Import GardenerTask ListFacts GardenerFacts.

Context {GeneralValues KubeClient KubeConfig Helm Release Rest : Type}.
Local Abbreviation event := (@GardenerTask.event KubeConfig Release Rest).
Local Abbreviation Gardener := (@GardenerTask.Gardener GeneralValues KubeClient Helm).

Variable GardenerNamespace : string.
Variable getValues : Gardener -> completion (@Values Rest).
Variable waitUntilVirtualClusterIsReady :
  list event -> GeneralValues -> completion KubeClient.
Variable getKubeConfig : KubeClient -> KubeConfig.
Variable getRelease : list event -> @Chart Rest -> GeneralValues -> completion Release.
Variable createOrUpdate :
  list event -> Helm -> Release -> option KubeConfig -> completion unit.
Variable k8s_getKubeConfigForServiceAccount :
  list event -> KubeClient -> string -> string -> completion KubeConfig.
Variable exportConfig : KubeConfig -> string.

Local Abbreviation do :=
  (GardenerTask.do GardenerNamespace getValues waitUntilVirtualClusterIsReady
     getKubeConfig getRelease createOrUpdate k8s_getKubeConfigForServiceAccount
     exportConfig).

(** Every way a run of [do] can go, one goal for each, with the answers of
    the collaborators as hypotheses. *)
Local Ltac run_cases this :=
  unfold GardenerTask.do, getKubeConfigForServiceAccount, bind, call, tell, lift, ret;
  destruct (dryRun this) eqn:Hdry; cbn [negb];
  destruct (virtualClient this) as [client0|] eqn:Hclient;
  repeat (cbn [values helm virtualClient dryRun hostClient option_map];
          match goal with
          | |- context [match ?x with Return _ => _ | Throw _ => _ end] =>
              lazymatch x with
              | context [match _ with Return _ => _ | Throw _ => _ end] => fail
              | _ => destruct x eqn:?
              end
          end);
  cbn [values helm virtualClient dryRun hostClient option_map fst snd] in *;
  repeat rewrite <- app_assoc in *; cbn [app] in *.

(** X11.  The application chart goes to the virtual cluster and the runtime
    chart to the host cluster: outside dry-run the first call of
    [helm.createOrUpdate] carries the kubeconfig of the client the
    readiness wait returned, in dry-run it carries the kubeconfig of the
    client the task holds, if any; every later call carries none. *)
Theorem do_chart_targets (this : Gardener) (log0 : list event) :
  exists tr,
    fst (do this log0) = (log0 ++ tr)%list /\
    forall pre rel kc post,
      tr = (pre ++ CreateOrUpdate rel kc :: post)%list ->
      (applies pre = 0 ->
       (dryRun this = true /\ kc = option_map getKubeConfig (virtualClient this)) \/
       (dryRun this = false /\
        exists h client,
          waitUntilVirtualClusterIsReady h (values this) = Return client /\
          kc = Some (getKubeConfig client))) /\
      (applies pre <> 0 -> kc = None).
Proof.
  run_cases this;
    (eexists; split; [reflexivity|]);
    intros pre0 rel kcfg post0 E; apply splits_complete in E; cbn [splits map] in E;
    repeat (destruct E as [E|E];
            [ inversion E; subst; clear E;
              unfold applies; cbn [filter isApply List.length];
              (split;
               [ intros Hap;
                 first [ discriminate Hap
                       | left; split; reflexivity
                       | right; split;
                         [reflexivity | do 2 eexists; split; [eassumption | reflexivity]] ]
               | intros Hne; first [reflexivity | exfalso; apply Hne; reflexivity] ])
            | ]);
    destruct E.
Qed.

(** X12.  [do] raises no error of its own: an exception a run ends with is
    the exception one of the collaborators answered with, be it
    [getValues], the readiness wait, [getRelease], [helm.createOrUpdate] or
    the request for the kubeconfig of one of the four service accounts. *)
Theorem do_errors_propagate (this : Gardener) (log0 : list event) (err : Exception) :
  snd (do this log0) = Throw err ->
  (exists t, getValues t = Throw err) \/
  (exists h, waitUntilVirtualClusterIsReady h (values this) = Throw err) \/
  (exists h c, getRelease h c (values this) = Throw err) \/
  (exists h rel kc, createOrUpdate h (helm this) rel kc = Throw err) \/
  (exists h client name,
     In name serviceAccounts /\
     k8s_getKubeConfigForServiceAccount h client GardenerNamespace name = Throw err).
Proof.
  run_cases this; intros Hthrow;
    first
      [ discriminate Hthrow
      | injection Hthrow as <-;
        first
          [ left; eexists; eassumption
          | right; left; eexists; eassumption
          | right; right; left; do 2 eexists; eassumption
          | right; right; right; left; do 3 eexists; eassumption
          | right; right; right; right; do 3 eexists;
            (split; [|eassumption]); cbn; tauto ] ].
Qed.

(** X13.  A run of [do] that returns has applied exactly two charts and
    requested the four credentials in order; the application chart was
    built with the values [getValues] returned, and the runtime chart with
    the same values except for the four kubeconfig entries, which hold, each
    in its own place, the credentials handed out for gardener-apiserver,
    gardener-controller-manager, gardener-scheduler and
    gardener-admission-controller: the exported kubeconfigs the virtual
    cluster answered with, or the placeholders when the task holds no
    client.  In dry-run the task is returned as it was; otherwise it holds
    the client the readiness wait returned. *)
Theorem do_success (this : Gardener) (log0 : list event) (this' : Gardener) :
  snd (do this log0) = Return this' ->
  exists gv k1 k2 k3 k4 tr,
    fst (do this log0) = (log0 ++ tr)%list /\
    getValues this' = Return gv /\
    ((dryRun this = true /\ this' = this) \/
     (dryRun this = false /\
      exists h client,
        waitUntilVirtualClusterIsReady h (values this) = Return client /\
        this' = mkGardener (hostClient this) (helm this) (values this) false
                  (Some client))) /\
    In (GetRelease (ApplicationChart gv)) tr /\
    In (GetRelease (RuntimeChart (mkValues k1 k2 k3 k4 (rest gv)))) tr /\
    applies tr = 2 /\
    requests tr = serviceAccounts /\
    match virtualClient this' with
    | None =>
        k1 = "dumy-gardener-apiserver" /\
        k2 = "dumy-gardener-controller-manager" /\
        k3 = "dumy-gardener-scheduler" /\
        k4 = "dumy-gardener-admission-controller"
    | Some client =>
        exists h1 h2 h3 h4 c1 c2 c3 c4,
          k8s_getKubeConfigForServiceAccount h1 client GardenerNamespace
            "gardener-apiserver" = Return c1 /\
          k1 = exportConfig c1 /\
          k8s_getKubeConfigForServiceAccount h2 client GardenerNamespace
            "gardener-controller-manager" = Return c2 /\
          k2 = exportConfig c2 /\
          k8s_getKubeConfigForServiceAccount h3 client GardenerNamespace
            "gardener-scheduler" = Return c3 /\
          k3 = exportConfig c3 /\
          k8s_getKubeConfigForServiceAccount h4 client GardenerNamespace
            "gardener-admission-controller" = Return c4 /\
          k4 = exportConfig c4
    end.
Proof.
  revert this'. run_cases this; intros this' Hret;
    first
      [ discriminate Hret
      | injection Hret as <-;
        do 6 eexists;
        (split; [reflexivity|]);
        (split; [eassumption|]);
        (split;
         [ first [ left; split; [reflexivity | first [reflexivity | now destruct this; cbn in *; subst]]
                 | right; split; [reflexivity | do 2 eexists; split; [eassumption | reflexivity]] ] |]);
        (split; [cbn [In]; repeat (first [left; reflexivity | right]) |]);
        (split; [cbn [In]; repeat (first [left; reflexivity | right]) |]);
        (split; [reflexivity|]);
        (split; [reflexivity|]);
        cbn [virtualClient]; rewrite ?Hclient;
        first [ repeat split; reflexivity
              | do 8 eexists; repeat split; first [reflexivity | eassumption] ] ].
Qed.

(** X14.  Outside dry-run the readiness wait comes first: only the opening
    log line precedes it, it is called once, and when it fails the run ends
    there with its error: no values are computed, no release is built and
    no chart is applied. *)
Theorem do_waits_first (this : Gardener) (log0 : list event) :
  dryRun this = false ->
  exists tr,
    fst (do this log0) =
      (log0 ++ LogInfo ("Installing Gardener version " ++ GardenerVersion)
            :: WaitUntilVirtualClusterIsReady :: tr)%list /\
    (forall e, In e tr -> e <> WaitUntilVirtualClusterIsReady) /\
    (forall err,
       waitUntilVirtualClusterIsReady
         (log0 ++ [LogInfo ("Installing Gardener version " ++ GardenerVersion)])%list
         (values this) = Throw err ->
       tr = [] /\ snd (do this log0) = Throw err).
Proof.
  intros Hreal. revert Hreal. run_cases this; intros Hreal; try discriminate Hreal;
    (eexists; split; [reflexivity|]);
    (split;
     [ intros ev Hin; cbn [In] in Hin;
       repeat (destruct Hin as [<-|Hin]; [discriminate|]); destruct Hin
     | intros err Hfail;
       first [ discriminate Hfail
             | injection Hfail as <-; split; reflexivity ] ]).
Qed.

End Task_Runs.

Lemma do_errors_propagate_witness :
  exists h rel kc,
    scenario_failing_helm h tt rel kc = Throw (mkException "Error" "apply failed").
Proof.
  destruct (do_errors_propagate "garden" scenario_getValues scenario_wait
              (fun _ => "virtual") scenario_getRelease scenario_failing_helm
              scenario_k8s (fun kc => kc)
              (GardenerTask.new_Gardener tt tt tt false) []
              (mkException "Error" "apply failed"))
    as [(t & H)|[(h & H)|[(h & c & H)|[(h & rel & kc & H)|(h & cl & n & _ & H)]]]];
    try discriminate H.
  - vm_compute. reflexivity.
  - now exists h, rel, kc.
Defined.

Lemma do_success_witness :
  exists gv k1 k2 k3 k4 (tr : list (@GardenerTask.event string string unit)),
    In (GardenerTask.GetRelease
          (GardenerTask.RuntimeChart
             (GardenerTask.mkValues k1 k2 k3 k4 (GardenerTask.rest gv)))) tr /\
    k1 = "garden/gardener-apiserver" /\
    GardenerTask.applies tr = 2.
Proof.
  destruct (do_success "garden" scenario_getValues scenario_wait
              (fun _ => "virtual") scenario_getRelease scenario_helm
              scenario_k8s (fun kc => kc)
              (GardenerTask.new_Gardener tt tt tt false) []
              (GardenerTask.mkGardener tt tt tt false (Some tt)))
    as (gv & k1 & k2 & k3 & k4 & tr & _ & _ & _ & _ & Hrt & Hap & _ & Hk).
  - vm_compute. reflexivity.
  - exists gv, k1, k2, k3, k4, tr. split; [exact Hrt|]. split; [|exact Hap].
    cbn in Hk. destruct Hk as (h1 & _ & _ & _ & c1 & _ & _ & _ & Hc1 & -> & _).
    unfold scenario_k8s in Hc1. now injection Hc1 as <-.
Defined.

Lemma do_waits_first_witness :
  exists tr : list (@GardenerTask.event string string unit),
    forall e, In e tr -> e <> GardenerTask.WaitUntilVirtualClusterIsReady.
Proof.
  destruct (do_waits_first "garden" scenario_getValues scenario_wait
              (fun _ => "virtual") scenario_getRelease scenario_helm
              scenario_k8s (fun kc => kc)
              (GardenerTask.new_Gardener tt tt tt false) [])
    as (tr & _ & Hno & _).
  - reflexivity.
  - now exists tr.
Defined.

(* ================================================================== *)
(** * Part XV. A fresh installation                                    *)
(* ================================================================== *)

